(** * ScrollableTabBar: layout arithmetic, animation retargeting, scroll
      synchronisation and press dispatch of the custom bottom tab bar

    Source: [src/client/components/ScrollableTabBar.tsx].

    The component is embedded shallowly:
    - JavaScript numbers are the type [number]: exact rationals for the
      finite values together with the three non-finite values of IEEE-754
      ([Infinity], [-Infinity], [NaN]), so that a division by zero, a product
      [0 * Infinity] and a comparison against [NaN] behave as they do in the
      source language.  Rounding of finite results is not represented in
      [number]; the module [Binary64] holds the layout calculator on
      binary64 itself, and what is stated of [number] is stated only where
      rounding does not decide it;
    - the navigation handle is a small state monad [Nav] over a router that
      records the calls it receives and answers [emit] through its
      listeners;
    - code that can throw returns a [Result];
    - the React hooks ([useRef], [useMemo], [useCallback], [useEffect]) are
      the fields of an [Instance] that [mount] creates and [update] threads
      through the calls of the component function. *)

From Stdlib Require Import QArith Qminmax Lqa PrimFloat.
From stdpp Require Import gmap strings list.

Open Scope Z_scope.

(** ** JavaScript numbers *)

Inductive number : Type :=
| Fin (q : Q)
| PInf
| NInf
| NaN.

Module Num.

Definition of_Z (z : Z) : number := Fin (inject_Z z).
Definition of_nat (n : nat) : number := of_Z (Z.of_nat n).

Definition neg (a : number) : number :=
  match a with
  | Fin x => Fin (- x)
  | PInf => NInf
  | NInf => PInf
  | NaN => NaN
  end.

(** [a + b] *)
Definition add (a b : number) : number :=
  match a, b with
  | NaN, _ | _, NaN => NaN
  | Fin x, Fin y => Fin (x + y)
  | PInf, NInf | NInf, PInf => NaN
  | PInf, _ | _, PInf => PInf
  | NInf, _ | _, NInf => NInf
  end.

(** [a - b] *)
Definition sub (a b : number) : number := add a (neg b).

(** The sign of a number that is not [NaN]; zero counts as positive zero. *)
Definition sign (a : number) : comparison :=
  match a with
  | Fin x => (x ?= 0)%Q
  | PInf => Gt
  | NInf => Lt
  | NaN => Eq
  end.

Definition inf_of (c : comparison) : number :=
  match c with
  | Gt => PInf
  | Lt => NInf
  | Eq => NaN
  end.

Definition sign_mul (c d : comparison) : comparison :=
  match c, d with
  | Eq, _ | _, Eq => Eq
  | Gt, Gt | Lt, Lt => Gt
  | Gt, Lt | Lt, Gt => Lt
  end.

(** [a * b]: a product with an infinite factor is infinite with the
    product of the signs, and [0 * Infinity] is [NaN]. *)
Definition mul (a b : number) : number :=
  match a, b with
  | NaN, _ | _, NaN => NaN
  | Fin x, Fin y => Fin (x * y)
  | _, _ => inf_of (sign_mul (sign a) (sign b))
  end.

(** [a / b]: a finite non-zero number over zero is infinite, [0 / 0] and
    [Infinity / Infinity] are [NaN], a finite number over an infinite one
    is zero. *)
Definition div (a b : number) : number :=
  match a, b with
  | NaN, _ | _, NaN => NaN
  | Fin x, Fin y =>
      match (y ?= 0)%Q with
      | Eq => inf_of (x ?= 0)%Q
      | _ => Fin (x / y)
      end
  | Fin _, _ => Fin 0
  | _, Fin y =>
      match (y ?= 0)%Q with
      | Lt => neg a
      | _ => a
      end
  | _, _ => NaN
  end.

(** The order of two numbers, [None] when one of them is [NaN]. *)
Definition cmp (a b : number) : option comparison :=
  match a, b with
  | NaN, _ | _, NaN => None
  | Fin x, Fin y => Some (x ?= y)%Q
  | PInf, PInf | NInf, NInf => Some Eq
  | PInf, _ | _, NInf => Some Gt
  | NInf, _ | _, PInf => Some Lt
  end.

(** [a > b] *)
Definition gt (a b : number) : bool :=
  match cmp a b with
  | Some Gt => true
  | _ => false
  end.

(** [Math.min(a, b)] *)
Definition Math_min (a b : number) : number :=
  match cmp a b with
  | None => NaN
  | Some Gt => b
  | Some _ => a
  end.

(** [Math.max(a, b)] *)
Definition Math_max (a b : number) : number :=
  match cmp a b with
  | None => NaN
  | Some Lt => b
  | Some _ => a
  end.

(** Two numbers denote the same value. *)
Definition eqv (a b : number) : Prop :=
  match a, b with
  | Fin x, Fin y => (x == y)%Q
  | PInf, PInf | NInf, NInf | NaN, NaN => True
  | _, _ => False
  end.

(** [lo <= a <= hi] for a finite [a]; no non-finite number is in a
    range. *)
Definition within (a : number) (lo hi : Q) : Prop :=
  match a with
  | Fin x => (lo <= x <= hi)%Q
  | _ => False
  end.

Definition is_finite (a : number) : bool :=
  match a with
  | Fin _ => true
  | _ => false
  end.

End Num.

Declare Scope num_scope.
Delimit Scope num_scope with num.
Bind Scope num_scope with number.
Infix "+" := Num.add : num_scope.
Infix "-" := Num.sub : num_scope.
Infix "*" := Num.mul : num_scope.
Infix "/" := Num.div : num_scope.
Infix ">" := Num.gt : num_scope.
Infix "=n=" := Num.eqv (at level 70, no associativity).

(** ** Data supplied by the router *)

Record Route : Type := mkRoute {
  key : string;
  name : string;
}.

Record NavigationState : Type := mkState {
  routes : list Route;
  index : Z;
}.

(** The display options of a descriptor; an absent field is [None]. *)
Record Options : Type := mkOptions {
  tabBarLabel : option string;
  title : option string;
}.

(** [descriptors] is an object of the router, read through
    [descriptors[route.key]]; a key without a descriptor reads as
    [undefined]. *)
Definition Descriptors : Type := string -> option Options.

(** ** Array helpers of the source language *)

Fixpoint findIndex_from {A : Type} (p : A -> bool) (l : list A) (i : Z) : Z :=
  match l with
  | [] => -1
  | x :: l' => if p x then i else findIndex_from p l' (i + 1)
  end.

(** [l.findIndex(p)]: the first position whose element satisfies [p], and
    [-1] when there is none. *)
Definition findIndex {A : Type} (p : A -> bool) (l : list A) : Z :=
  findIndex_from p l 0.

Definition is_camera (route : Route) : bool := String.eqb (name route) "camera".

(** ** Layout calculator *)

Record TabCalculations : Type := mkCalc {
  tabWidth : number;
  totalWidth : number;
  needsScroll : bool;
  activeIndex : Z;
  cameraIndex : Z;
  routesCount : nat;
}.

Section Layout.

(** [SCREEN_WIDTH = Dimensions.get("window").width], read once when the
    module is loaded. *)
Variable SCREEN_WIDTH : Q.

Definition tabCalculations (state : NavigationState) : TabCalculations :=
  let routesCount := length (routes state) in
  let visibleTabs := Num.Math_min (Num.of_nat routesCount) (Num.of_Z 5) in
  let tabWidth := (Fin SCREEN_WIDTH / visibleTabs)%num in
  let totalWidth := (Num.of_nat routesCount * tabWidth)%num in
  let needsScroll := (totalWidth > Fin SCREEN_WIDTH)%num in
  let activeIndex := index state in
  let cameraIndex := findIndex is_camera (routes state) in
  {| tabWidth := tabWidth;
     totalWidth := totalWidth;
     needsScroll := needsScroll;
     activeIndex := activeIndex;
     cameraIndex := cameraIndex;
     routesCount := routesCount |}.

End Layout.

(** ** Animated values and the commands issued on them *)

(** One entry of [iconAnimations]: three [Animated.Value]s, here the values
    they are created with. *)
Record IconAnimation : Type := mkIconAnimation {
  scale : number;
  translateY : number;
  opacity : number;
}.

(** The animated values of the component: [indicatorAnim] and the fields of
    the entry at a position of [iconAnimations]. *)
Inductive ValueRef : Type :=
| indicatorAnim
| anim_scale (i : nat)
| anim_translateY (i : nat)
| anim_opacity (i : nat).

Record SpringConfig : Type := mkSpring {
  spring_toValue : number;
  spring_useNativeDriver : bool;
  tension : Q;
  friction : Q;
}.

Record TimingConfig : Type := mkTiming {
  timing_toValue : number;
  duration : Q;
  timing_useNativeDriver : bool;
}.

#[warnings="-register-all"]
Inductive Animation : Type :=
| Animated_spring (v : ValueRef) (config : SpringConfig)
| Animated_timing (v : ValueRef) (config : TimingConfig)
| Animated_parallel (animations : list Animation).

(** What the animation driver and the scroll synchroniser ask of the
    runtime: [animation.start()] and [scrollViewRef.current.scrollTo]. *)
Inductive Command : Type :=
| start (a : Animation)
| scrollTo (x : number) (animated : bool).

Section Animation.

Variable SCREEN_WIDTH : Q.

Definition animateIcon (activeIndex cameraIndex : Z) (index : nat)
    (anim : IconAnimation) : list Command :=
  let isActive := Z.of_nat index =? activeIndex in
  let isCamera := Z.of_nat index =? cameraIndex in
  if negb isCamera then
    [start (Animated_parallel
       [Animated_spring (anim_scale index)
          {| spring_toValue := if isActive then Fin (11 # 10) else Num.of_Z 1;
             spring_useNativeDriver := true;
             tension := 300;
             friction := 20 |};
        Animated_spring (anim_translateY index)
          {| spring_toValue := if isActive then Num.of_Z (-2) else Num.of_Z 0;
             spring_useNativeDriver := true;
             tension := 300;
             friction := 20 |};
        Animated_timing (anim_opacity index)
          {| timing_toValue := if isActive then Num.of_Z 1 else Fin (6 # 10);
             duration := 200;
             timing_useNativeDriver := true |}])]
  else [].

(** The target of the indicator spring. *)
Definition indicatorTarget (calc : TabCalculations) : number :=
  (Num.of_Z (activeIndex calc) * tabWidth calc
   + tabWidth calc / Num.of_Z 2 - Num.of_Z 20)%num.

(** [scrollOffset], the offset of the left-to-right layout. *)
Definition scrollOffset (calc : TabCalculations) : number :=
  Num.Math_max (Num.of_Z 0)
    (Num.Math_min
       (Num.of_Z (activeIndex calc) * tabWidth calc
        - Fin SCREEN_WIDTH / Num.of_Z 2 + tabWidth calc / Num.of_Z 2)%num
       (totalWidth calc - Fin SCREEN_WIDTH)%num).

(** [animateToActiveTab]; [scrollViewRef] tells whether
    [scrollViewRef.current] is attached. *)
Definition animateToActiveTab (calc : TabCalculations) (isRTL : bool)
    (iconAnimations : list IconAnimation) (scrollViewRef : bool)
    : list Command :=
  [start (Animated_spring indicatorAnim
      {| spring_toValue := indicatorTarget calc;
         spring_useNativeDriver := true;
         tension := 300;
         friction := 25 |})]
  ++ concat (imap (animateIcon (activeIndex calc) (cameraIndex calc))
               iconAnimations)
  ++ (if needsScroll calc && scrollViewRef then
        [scrollTo
           (if isRTL
            then (totalWidth calc - Fin SCREEN_WIDTH - scrollOffset calc)%num
            else scrollOffset calc)
           true]
      else []).

End Animation.

(** ** The navigation handle *)

Record EventDescriptor : Type := mkEvent {
  type : string;
  target : string;
  (** [false] when the descriptor does not set the field *)
  canPreventDefault : bool;
}.

Record Event : Type := mkEventResult {
  defaultPrevented : bool;
}.

(** A call received by the router. *)
Inductive Call : Type :=
| emitted (e : EventDescriptor)
| navigated (routeName : string).

(** The router behind [navigation]: its listeners decide, for each emitted
    event, whether the default is prevented; [calls] is the log of what it
    was asked, oldest first. *)
Record Router : Type := mkRouter {
  listeners : EventDescriptor -> bool;
  calls : list Call;
}.

Definition Nav (A : Type) : Type := Router -> A * Router.

Definition ret {A : Type} (a : A) : Nav A := fun r => (a, r).

Definition bind {A B : Type} (m : Nav A) (k : A -> Nav B) : Nav B :=
  fun r => let (a, r') := m r in k a r'.

Notation "'let*' x ':=' m 'in' k" := (bind m (fun x => k))
  (at level 10, x name, m at level 100, k at level 200).
Notation "'do' m 'then' k" := (bind m (fun _ => k))
  (at level 10, m at level 100, k at level 200).

Module navigation.

Definition emit (e : EventDescriptor) : Nav Event :=
  fun r =>
    ({| defaultPrevented := listeners r e |},
     {| listeners := listeners r; calls := calls r ++ [emitted e] |}).

Definition navigate (routeName : string) : Nav unit :=
  fun r =>
    (tt, {| listeners := listeners r; calls := calls r ++ [navigated routeName] |}).

End navigation.

(** The calls a handler makes on a router that has received none. *)
Definition trace (listen : EventDescriptor -> bool) (h : Nav unit) : list Call :=
  calls (snd (h {| listeners := listen; calls := [] |})).

(** ** Press handlers *)

(** The handlers of an ordinary tab of the strip. *)
Module Tab.

Definition onPress (route : Route) (isFocused : bool) : Nav unit :=
  let* event := navigation.emit
                  {| type := "tabPress";
                     target := key route;
                     canPreventDefault := true |} in
  if negb isFocused && negb (defaultPrevented event)
  then navigation.navigate (name route)
  else ret tt.

Definition onLongPress (route : Route) : Nav unit :=
  do navigation.emit
       {| type := "tabLongPress";
          target := key route;
          canPreventDefault := false |}
  then ret tt.

End Tab.

(** The handler of the floating camera button. *)
Module FloatingCamera.

Definition onPress (cameraRoute : Route) (isFocused : bool) : Nav unit :=
  let* event := navigation.emit
                  {| type := "tabPress";
                     target := key cameraRoute;
                     canPreventDefault := true |} in
  if negb isFocused && negb (defaultPrevented event)
  then navigation.navigate (name cameraRoute)
  else ret tt.

End FloatingCamera.

(** ** Icons *)

Inductive Icon : Type :=
| Home | History | Camera | TrendingUp | User | Calendar | Watch
| UtensilsCrossed | Bot | Scan | ClipboardList.

(** The own properties of the object literal [iconMap]. *)
Definition iconMap : gmap string Icon :=
  list_to_map
    [("index", Home);
     ("history", History);
     ("camera", Camera);
     ("statistics", TrendingUp);
     ("calendar", Calendar);
     ("devices", Watch);
     ("recommended-menus", UtensilsCrossed);
     ("ai-chat", Bot);
     ("food-scanner", Scan);
     ("questionnaire", ClipboardList);
     ("profile", User)].

(** An object literal inherits from [Object.prototype]: a property read
    [obj[k]] that finds no own property [k] continues there.  These are the
    property names of [Object.prototype]; each holds a function or an
    object, hence a truthy value. *)
Definition Object_prototype : list string :=
  ["constructor"; "hasOwnProperty"; "isPrototypeOf"; "propertyIsEnumerable";
   "toLocaleString"; "toString"; "valueOf"; "__proto__";
   "__defineGetter__"; "__defineSetter__"; "__lookupGetter__";
   "__lookupSetter__"].

(** What a property read on [iconMap] can yield: one of the icons, or a
    member inherited from [Object.prototype]. *)
Inductive Component : Type :=
| Lucide (icon : Icon)
| Inherited (member : string).

(** [obj[k]], with [None] for [undefined]. *)
Definition get_property (obj : gmap string Icon) (k : string) : option Component :=
  match obj !! k with
  | Some icon => Some (Lucide icon)
  | None =>
      if bool_decide (k ∈ Object_prototype) then Some (Inherited k) else None
  end.

(** [iconMap[route.name] || Home]: every value a read can yield is truthy. *)
Definition IconComponent (route : Route) : Component :=
  default (Lucide Home) (get_property iconMap (name route)).

(** ** Code that can throw *)

Inductive Error : Type :=
| TypeError (message : string).

Inductive Result (A : Type) : Type :=
| Ok (a : A)
| Throw (e : Error).

Arguments Ok {A} a.
Arguments Throw {A} e.

Definition is_Ok {A : Type} (r : Result A) : bool :=
  match r with
  | Ok _ => true
  | Throw _ => false
  end.

(** [l.map((x, i) => f(i, x))] for a callback that can throw: the callbacks
    run in order and the first exception ends the loop. *)
Fixpoint map_from {A B : Type} (f : nat -> A -> Result B) (i : nat) (l : list A)
    : Result (list B) :=
  match l with
  | [] => Ok []
  | x :: l' =>
      match f i x with
      | Throw e => Throw e
      | Ok y =>
          match map_from f (S i) l' with
          | Throw e => Throw e
          | Ok ys => Ok (y :: ys)
          end
      end
  end.

(** ** Renderer *)

(** The press callbacks given to a [TouchableOpacity]; [None] for a prop
    that is not passed. *)
Record TouchableOpacity : Type := mkTouchable {
  props_onPress : option (Nav unit);
  props_onLongPress : option (Nav unit);
  activeOpacity : Q;
}.

(** A child of the scrollable strip: the empty slot kept for the camera
    route, or a touchable tab. *)
Inductive TabItem : Type :=
| View (item_key : string) (width : number)
| Touchable (item_key : string) (width : number) (selected : bool)
    (accessibilityLabel : string) (icon : Component) (anim : IconAnimation)
    (props : TouchableOpacity).

Inductive Side : Type := left_side | right_side.

Record FloatingCameraButton : Type := mkFloating {
  side : Side;
  camera_isFocused : bool;
  cameraLabel : string;
  camera_props : TouchableOpacity;
}.

Inductive FlexDirection : Type := row | row_reverse.

Record Rendered : Type := mkRendered {
  contentWidth : number;
  flexDirection : FlexDirection;
  tabs : list TabItem;
  floating : option FloatingCameraButton;
}.

(** A string operand of [||] counts when it is present and not empty. *)
Definition truthy (o : option string) : option string :=
  match o with
  | Some s => if String.eqb s "" then None else Some s
  | None => None
  end.

(** [options.tabBarLabel || options.title || route.name] *)
Definition label_of (options : Options) (route : Route) : string :=
  match truthy (tabBarLabel options) with
  | Some l => l
  | None =>
      match truthy (title options) with
      | Some l => l
      | None => name route
      end
  end.

Section Renderer.

Variable SCREEN_WIDTH : Q.

(** The translation function of the localisation layer. *)
Variable t : string -> string.

(** The callback of [state.routes.map] in the strip. *)
Definition renderTab (state : NavigationState) (calc : TabCalculations)
    (iconAnimations : list IconAnimation) (descriptors : Descriptors)
    (index_ : nat) (route : Route) : Result TabItem :=
  match descriptors (key route) with
  | None => Throw (TypeError "Cannot destructure property 'options'")
  | Some options =>
      let label := label_of options route in
      let isFocused := index state =? Z.of_nat index_ in
      let IconComponent := IconComponent route in
      if String.eqb (name route) "camera" then
        Ok (View (key route) (tabWidth calc))
      else
        match iconAnimations !! index_ with
        | None => Throw (TypeError "Cannot read properties of undefined")
        | Some anim =>
            Ok (Touchable (key route) (tabWidth calc) isFocused label
                  IconComponent anim
                  {| props_onPress := Some (Tab.onPress route isFocused);
                     props_onLongPress := Some (Tab.onLongPress route);
                     activeOpacity := 7 # 10 |})
        end
  end.

Definition renderFloatingCameraButton (state : NavigationState)
    (calc : TabCalculations) (descriptors : Descriptors) (isRTL : bool)
    : Result (option FloatingCameraButton) :=
  match find is_camera (routes state) with
  | None => Ok None
  | Some cameraRoute =>
      match descriptors (key cameraRoute) with
      | None => Throw (TypeError "Cannot destructure property 'options'")
      | Some options =>
          let isFocused := index state =? cameraIndex calc in
          Ok (Some
                {| side := if isRTL then left_side else right_side;
                   camera_isFocused := isFocused;
                   cameraLabel := t "tabs.camera";
                   camera_props :=
                     {| props_onPress :=
                          Some (FloatingCamera.onPress cameraRoute isFocused);
                        props_onLongPress := None;
                        activeOpacity := 8 # 10 |} |})
      end
  end.

(** The element tree the component returns. *)
Definition view (state : NavigationState) (calc : TabCalculations)
    (iconAnimations : list IconAnimation) (descriptors : Descriptors)
    (isRTL : bool) : Result Rendered :=
  let width := Num.Math_max (Fin SCREEN_WIDTH) (totalWidth calc) in
  match map_from (renderTab state calc iconAnimations descriptors) 0
          (routes state) with
  | Throw e => Throw e
  | Ok items =>
      match renderFloatingCameraButton state calc descriptors isRTL with
      | Throw e => Throw e
      | Ok button =>
          Ok {| contentWidth := width;
                flexDirection := if isRTL then row_reverse else row;
                tabs := items;
                floating := button |}
      end
  end.

End Renderer.

(** ** Presses

    [press] is the call of the press callback of a touchable.  Which
    gestures make the runtime call which callback is decided by the
    runtime and is no part of this component. *)

Definition press (p : TouchableOpacity) : Nav unit :=
  match props_onPress p with
  | Some handler => handler
  | None => ret tt
  end.

(** ** The mounted component and its hooks *)

(** What the hooks keep between renders: the array held by
    [useRef(...).current], the value and the dependencies of the [useMemo]
    cell, and the [isRTL] dependency of the [useCallback] cell (its other
    dependency is the memoised value itself). *)
Record Instance : Type := mkInstance {
  iconAnimations : list IconAnimation;
  memo_deps : nat * Z;
  memo_value : TabCalculations;
  callback_isRTL : bool;
}.

(** The dependencies of [useMemo]: [[state.routes.length, state.index]]. *)
Definition deps_of (state : NavigationState) : nat * Z :=
  (length (routes state), index state).

Definition deps_eqb (d d' : nat * Z) : bool :=
  Nat.eqb (fst d) (fst d') && Z.eqb (snd d) (snd d').

(** The initial value of the [iconAnimations] reference. *)
Definition initialAnimations (state : NavigationState) : list IconAnimation :=
  map (fun _ => {| scale := Num.of_Z 1;
                   translateY := Num.of_Z 0;
                   opacity := Fin (7 # 10) |})
      (routes state).

(** The width given to [activeIndicator] by the style sheet. *)
Definition activeIndicator_width : Q := 40.

Section Component.

Variable SCREEN_WIDTH : Q.
Variable t : string -> string.

(** The call of the component function for the first render: the
    references and cells it creates, the tree it returns and the effect it
    hands to [useEffect], which the runtime runs once it has committed the
    tree (the scroll view is attached by then).  [Throw] is an exception
    of the component function itself; whether the runtime can commit the
    returned tree is the matter of the runtime. *)
Definition mount (state : NavigationState) (descriptors : Descriptors)
    (isRTL : bool) : Result (Instance * Rendered * list Command) :=
  let iconAnimations := initialAnimations state in
  let calc := tabCalculations SCREEN_WIDTH state in
  match view SCREEN_WIDTH t state calc iconAnimations descriptors isRTL with
  | Throw e => Throw e
  | Ok tree =>
      Ok ({| iconAnimations := iconAnimations;
             memo_deps := deps_of state;
             memo_value := calc;
             callback_isRTL := isRTL |},
          tree,
          animateToActiveTab SCREEN_WIDTH calc isRTL iconAnimations true)
  end.

(** A later call of the component function: the reference keeps its
    array; the memoised geometry is recomputed when a dependency changed;
    the callback, and with it the effect handed to [useEffect], is renewed
    when the geometry was recomputed or [isRTL] changed. *)
Definition update (inst : Instance) (state : NavigationState)
    (descriptors : Descriptors) (isRTL : bool)
    : Result (Instance * Rendered * list Command) :=
  let recomputed := negb (deps_eqb (deps_of state) (memo_deps inst)) in
  let calc :=
    if recomputed then tabCalculations SCREEN_WIDTH state
    else memo_value inst in
  let renewed := recomputed || negb (Bool.eqb isRTL (callback_isRTL inst)) in
  match view SCREEN_WIDTH t state calc (iconAnimations inst) descriptors isRTL with
  | Throw e => Throw e
  | Ok tree =>
      Ok ({| iconAnimations := iconAnimations inst;
             memo_deps := deps_of state;
             memo_value := calc;
             callback_isRTL := isRTL |},
          tree,
          if renewed
          then animateToActiveTab SCREEN_WIDTH calc isRTL (iconAnimations inst) true
          else [])
  end.

(** [inst'] is [inst] after some number of further renders. *)
Inductive rerendered : Instance -> Instance -> Prop :=
| rerendered_refl inst : rerendered inst inst
| rerendered_step inst inst' inst'' state descriptors isRTL tree effects :
    rerendered inst inst' ->
    update inst' state descriptors isRTL = Ok (inst'', tree, effects) ->
    rerendered inst inst''.

End Component.

(** ** Reading the commands *)

(** The configurations of the springs started on the indicator. *)
Definition indicator_springs (cmds : list Command) : list SpringConfig :=
  omap (fun c =>
          match c with
          | start (Animated_spring indicatorAnim config) => Some config
          | _ => None
          end) cmds.

(** The offsets of the scroll commands. *)
Definition scroll_offsets (cmds : list Command) : list number :=
  omap (fun c =>
          match c with
          | scrollTo x _ => Some x
          | _ => None
          end) cmds.

(** The route names a handler asked the router to navigate to. *)
Definition navigations (l : list Call) : list string :=
  omap (fun c =>
          match c with
          | navigated n => Some n
          | emitted _ => None
          end) l.

(** The press contract: first a cancelable [tabPress] event for the key of
    the route, then one navigation to the name of the route when the tab is
    not focused and the event was not cancelled, and nothing else. *)
Definition press_contract_of (listen : EventDescriptor -> bool) (route : Route)
    (isFocused : bool) (calls : list Call) : Prop :=
  let event := {| type := "tabPress"; target := key route;
                  canPreventDefault := true |} in
  calls = emitted event
            :: (if negb isFocused && negb (listen event)
                then [navigated (name route)] else []).

(** The icon animation a command starts: the position of the entry and
    the targets of its scale, vertical offset and opacity. *)
Definition icon_retarget (c : Command)
    : option (nat * (number * number * number)) :=
  match c with
  | start (Animated_parallel
             [Animated_spring (anim_scale i) s;
              Animated_spring (anim_translateY _) ty;
              Animated_timing (anim_opacity _) o]) =>
      Some (i, (spring_toValue s, spring_toValue ty, timing_toValue o))
  | _ => None
  end.

Definition icon_retargets (cmds : list Command)
    : list (nat * (number * number * number)) :=
  omap icon_retarget cmds.

(** The targets of the active icon and of every other icon. *)
Definition raised : number * number * number :=
  (Fin (11 # 10), Num.of_Z (-2), Num.of_Z 1).

Definition lowered : number * number * number :=
  (Num.of_Z 1, Num.of_Z 0, Fin (6 # 10)).

(** ** Reading the rendered tree *)

Definition item_key_of (item : TabItem) : string :=
  match item with
  | View k _ => k
  | Touchable k _ _ _ _ _ _ => k
  end.

Definition item_width (item : TabItem) : number :=
  match item with
  | View _ w => w
  | Touchable _ w _ _ _ _ _ => w
  end.

(** [accessibilityState.selected]; the empty slot is no tab. *)
Definition item_selected (item : TabItem) : bool :=
  match item with
  | View _ _ => false
  | Touchable _ _ selected _ _ _ _ => selected
  end.

Definition item_props (item : TabItem) : option TouchableOpacity :=
  match item with
  | View _ _ => None
  | Touchable _ _ _ _ _ _ props => Some props
  end.

Definition item_label (item : TabItem) : option string :=
  match item with
  | View _ _ => None
  | Touchable _ _ _ label _ _ _ => Some label
  end.

(** How many controls of a tree are shown as focused: the selected tabs of
    the strip and the floating button. *)
Definition focused_controls (tree : Rendered) : nat :=
  (length (List.filter item_selected (tabs tree))
   + match floating tree with
     | Some button => if camera_isFocused button then 1 else 0
     | None => 0
     end)%nat.

(** [inst] is the mounted component after a sequence of renders of which
    [state] is the last. *)
Inductive rendered (W : Q) (t : string -> string)
    : Instance -> NavigationState -> Prop :=
| rendered_mount state descriptors isRTL inst tree effects :
    mount W t state descriptors isRTL = Ok (inst, tree, effects) ->
    rendered W t inst state
| rendered_update inst prev state descriptors isRTL inst' tree effects :
    rendered W t inst prev ->
    update W t inst state descriptors isRTL = Ok (inst', tree, effects) ->
    rendered W t inst' state.

(** ** The geometry in the words of the specification, over the rationals *)

Module Spec.

Definition clamp (x lo hi : Q) : Q :=
  if Qle_bool x lo then lo else if Qle_bool hi x then hi else x.

Section Geometry.

Variable viewportWidth : Q.
Variable routeCount : nat.
Variable activeIndex : Z.

Definition visibleTabs : Q := inject_Z (Z.min (Z.of_nat routeCount) 5).
Definition tabWidth : Q := viewportWidth / visibleTabs.
Definition totalWidth : Q := tabWidth * inject_Z (Z.of_nat routeCount).
Definition centred : Q :=
  inject_Z activeIndex * tabWidth - viewportWidth / 2 + tabWidth / 2.
Definition scrollOffset : Q := clamp centred 0 (totalWidth - viewportWidth).
Definition indicatorOffset : Q :=
  inject_Z activeIndex * tabWidth + tabWidth / 2 - activeIndicator_width / 2.

End Geometry.

End Spec.

(** ** The layout calculator on binary64

    The layout calculator once more, on the number type of the source
    language itself: IEEE-754 binary64 with rounding to nearest. *)

Module Binary64.

(** A route count as a number; exact for every count a list can have. *)
Fixpoint of_nat (n : nat) : float :=
  match n with
  | O => 0%float
  | S k => (of_nat k + 1)%float
  end.

(** [a > b] *)
Definition gt (a b : float) : bool := PrimFloat.ltb b a.

(** [Math.min(a, b)], for operands other than zeros of opposite sign. *)
Definition Math_min (a b : float) : float :=
  if PrimFloat.is_nan a || PrimFloat.is_nan b then nan
  else if PrimFloat.ltb b a then b else a.

Record TabCalculations : Type := mkCalc {
  tabWidth : float;
  totalWidth : float;
  needsScroll : bool;
  activeIndex : Z;
  cameraIndex : Z;
  routesCount : nat;
}.

Definition tabCalculations (SCREEN_WIDTH : float) (state : NavigationState)
    : TabCalculations :=
  let routesCount := length (routes state) in
  let visibleTabs := Math_min (of_nat routesCount) 5%float in
  let tabWidth := (SCREEN_WIDTH / visibleTabs)%float in
  let totalWidth := (of_nat routesCount * tabWidth)%float in
  let needsScroll := gt totalWidth SCREEN_WIDTH in
  let activeIndex := index state in
  let cameraIndex := findIndex is_camera (routes state) in
  {| tabWidth := tabWidth;
     totalWidth := totalWidth;
     needsScroll := needsScroll;
     activeIndex := activeIndex;
     cameraIndex := cameraIndex;
     routesCount := routesCount |}.

(** [Math.max(a, b)], for operands other than zeros of opposite sign. *)
Definition Math_max (a b : float) : float :=
  if PrimFloat.is_nan a || PrimFloat.is_nan b then nan
  else if PrimFloat.ltb a b then b else a.

(** An index of the router as a number; exact for every index below
    2^53. *)
Definition of_Z (z : Z) : float :=
  match z with
  | Z0 => 0%float
  | Zpos p => of_nat (Pos.to_nat p)
  | Zneg p => (- of_nat (Pos.to_nat p))%float
  end.

(** [scrollOffset], the offset of the left-to-right layout. *)
Definition scrollOffset (SCREEN_WIDTH : float) (calc : TabCalculations) : float :=
  Math_max 0%float
    (Math_min
       (of_Z (activeIndex calc) * tabWidth calc
        - SCREEN_WIDTH / 2 + tabWidth calc / 2)%float
       (totalWidth calc - SCREEN_WIDTH)%float).

(** The target of the indicator spring. *)
Definition indicatorTarget (calc : TabCalculations) : float :=
  (of_Z (activeIndex calc) * tabWidth calc + tabWidth calc / 2 - 20)%float.

End Binary64.

(** ** Example inputs *)

(** Six routes with the camera at position 2, as in the end-to-end example
    of the specification. *)
Definition six_routes : list Route :=
  [mkRoute "index-1" "index"; mkRoute "history-2" "history";
   mkRoute "camera-3" "camera"; mkRoute "statistics-4" "statistics";
   mkRoute "calendar-5" "calendar"; mkRoute "profile-6" "profile"].

Definition five_routes : list Route :=
  [mkRoute "index-1" "index"; mkRoute "history-2" "history";
   mkRoute "statistics-4" "statistics"; mkRoute "calendar-5" "calendar";
   mkRoute "profile-6" "profile"].

(** The width of a window of 1170 pixels at a pixel ratio of 2.75. *)
Definition width_1170_at_2_75 : float := (1170 / 2.75)%float.

Definition three_routes : list Route :=
  [mkRoute "index-1" "index"; mkRoute "camera-3" "camera";
   mkRoute "profile-6" "profile"].

(** A router that gives every route default options. *)
Definition plain_descriptors : Descriptors :=
  fun _ => Some {| tabBarLabel := None; title := None |}.

Definition no_translation : string -> string := fun k => k.

(** Listeners that never prevent the default. *)
Definition passive : EventDescriptor -> bool := fun _ => false.

(** * Properties *)

(** ** Numbers *)

Lemma Qcompare_inject_Z (a b : Z) : (inject_Z a ?= inject_Z b)%Q = (a ?= b)%Z.
Proof. unfold Qcompare; simpl. by rewrite !Z.mul_1_r. Qed.

Lemma Math_min_of_Z (a b : Z) :
  Num.Math_min (Num.of_Z a) (Num.of_Z b) = Num.of_Z (Z.min a b).
Proof.
  unfold Num.Math_min, Num.of_Z, Z.min; simpl.
  rewrite Qcompare_inject_Z. by destruct (a ?= b).
Qed.

Lemma div_of_Z_pos (x : Q) (v : Z) :
  0 < v -> (Fin x / Num.of_Z v)%num = Fin (x / inject_Z v).
Proof.
  intros Hv. unfold Num.div, Num.of_Z.
  change 0%Q with (inject_Z 0). rewrite Qcompare_inject_Z.
  apply Z.gt_lt_iff in Hv. by rewrite Hv.
Qed.

Lemma gt_Fin (x y : Q) : (Fin x > Fin y)%num = true <-> (y < x)%Q.
Proof.
  unfold Num.gt; simpl. rewrite Qlt_alt, (Qgt_alt x y).
  destruct (x ?= y)%Q eqn:E.
  all: rewrite ?E; split; intros; congruence.
Qed.

(** ** The geometry of the specification *)

Lemma inject_Z_pos (z : Z) : 0 < z -> (0 < inject_Z z)%Q.
Proof. intros H. change 0%Q with (inject_Z 0). by rewrite <- Zlt_Qlt. Qed.

Lemma spec_visibleTabs_pos (routeCount : nat) :
  (1 <= routeCount)%nat -> (0 < Spec.visibleTabs routeCount)%Q.
Proof. intros H. apply inject_Z_pos. lia. Qed.

Lemma spec_tabWidth_fit (W : Q) (routeCount : nat) :
  (1 <= routeCount <= 5)%nat ->
  (Spec.tabWidth W routeCount == W / inject_Z (Z.of_nat routeCount))%Q.
Proof.
  intros H. unfold Spec.tabWidth, Spec.visibleTabs.
  by replace (Z.min (Z.of_nat routeCount) 5) with (Z.of_nat routeCount) by lia.
Qed.

Lemma spec_tabWidth_overflow (W : Q) (routeCount : nat) :
  (5 < routeCount)%nat -> (Spec.tabWidth W routeCount == W / 5)%Q.
Proof.
  intros H. unfold Spec.tabWidth, Spec.visibleTabs.
  by replace (Z.min (Z.of_nat routeCount) 5) with 5 by lia.
Qed.

Lemma spec_totalWidth_overflow (W : Q) (routeCount : nat) :
  (5 < routeCount)%nat -> (0 < W)%Q -> (W < Spec.totalWidth W routeCount)%Q.
Proof.
  intros H HW. unfold Spec.totalWidth. rewrite spec_tabWidth_overflow by done.
  assert (6 <= inject_Z (Z.of_nat routeCount))%Q as Hr.
  { change 6%Q with (inject_Z 6). rewrite <- Zle_Qle. lia. }
  set (r := inject_Z (Z.of_nat routeCount)) in *.
  assert (W / 5 * r == W * (r / 5))%Q as -> by (field; lra).
  assert (1 < r / 5)%Q by (apply Qlt_shift_div_l; lra).
  nra.
Qed.

(** ** The layout calculator against the specification *)

Lemma tabCalculations_tabWidth (W : Q) (state : NavigationState) :
  (1 <= length (routes state))%nat ->
  tabWidth (tabCalculations W state)
  = Fin (Spec.tabWidth W (length (routes state))).
Proof.
  intros H. cbv beta iota zeta delta [tabCalculations tabWidth].
  unfold Num.of_nat. rewrite Math_min_of_Z, div_of_Z_pos by lia. done.
Qed.

Lemma tabCalculations_needsScroll (W : Q) (state : NavigationState) :
  (1 <= length (routes state))%nat ->
  needsScroll (tabCalculations W state) = true
  <-> (W < Spec.totalWidth W (length (routes state)))%Q.
Proof.
  intros H.
  change (needsScroll (tabCalculations W state))
    with (totalWidth (tabCalculations W state) > Fin W)%num.
  change (totalWidth (tabCalculations W state))
    with (Num.of_nat (length (routes state)) * tabWidth (tabCalculations W state))%num.
  rewrite tabCalculations_tabWidth by done. simpl.
  rewrite gt_Fin. unfold Spec.totalWidth.
  by rewrite (Qmult_comm (Spec.tabWidth _ _)).
Qed.

Lemma needsScroll_overflow (W : Q) (state : NavigationState) :
  (5 < length (routes state))%nat -> (0 < W)%Q ->
  needsScroll (tabCalculations W state) = true.
Proof.
  intros H HW. apply tabCalculations_needsScroll; [lia |].
  by apply spec_totalWidth_overflow.
Qed.

Lemma visibleTabs_fit (routeCount : nat) :
  (routeCount <= 5)%nat ->
  Num.Math_min (Num.of_nat routeCount) (Num.of_Z 5) = Num.of_nat routeCount.
Proof.
  intros H. unfold Num.of_nat. rewrite Math_min_of_Z. f_equal. lia.
Qed.

Lemma visibleTabs_overflow (routeCount : nat) :
  (5 < routeCount)%nat ->
  Num.Math_min (Num.of_nat routeCount) (Num.of_Z 5) = Num.of_Z 5.
Proof.
  intros H. unfold Num.of_nat. rewrite Math_min_of_Z. f_equal. lia.
Qed.

(** The two embeddings of the layout arithmetic on the end-to-end example
    of the specification (six routes, viewport 360, active index 4: tab
    width 72, total width 432, overflow, scroll offset 72, indicator target
    304), where no operation rounds. *)
Lemma end_to_end_example :
  let state := mkState six_routes 4 in
  let calc := tabCalculations 360 state in
  let calc64 := Binary64.tabCalculations 360%float state in
  (tabWidth calc =n= Fin 72 /\ Binary64.tabWidth calc64 = 72%float)
  /\ (totalWidth calc =n= Fin 432 /\ Binary64.totalWidth calc64 = 432%float)
  /\ (needsScroll calc = true /\ Binary64.needsScroll calc64 = true)
  /\ (scrollOffset 360 calc =n= Fin 72
      /\ Binary64.scrollOffset 360%float calc64 = 72%float)
  /\ (indicatorTarget calc =n= Fin 304
      /\ Binary64.indicatorTarget calc64 = 304%float).
Proof. by vm_compute. Qed.




(** ** Reading the commands of the animation driver *)

Lemma omap_concat_imap_nil {A B C : Type} (g : B -> option C)
    (f : nat -> A -> list B) (l : list A) :
  (forall i x, omap g (f i x) = []) -> omap g (concat (imap f l)) = [].
Proof.
  revert f. induction l as [| x l IH]; intros f Hf; [done |].
  simpl. rewrite omap_app, Hf. simpl. apply IH. intros i y. apply Hf.
Qed.

Lemma indicator_springs_animateIcon (a c : Z) (i : nat) (anim : IconAnimation) :
  indicator_springs (animateIcon a c i anim) = [].
Proof. unfold animateIcon. by destruct (negb _). Qed.

Lemma scroll_offsets_animateIcon (a c : Z) (i : nat) (anim : IconAnimation) :
  scroll_offsets (animateIcon a c i anim) = [].
Proof. unfold animateIcon. by destruct (negb _). Qed.

(** Every run of the driver starts exactly one spring on the indicator. *)
Lemma indicator_springs_animateToActiveTab (W : Q) (calc : TabCalculations)
    (isRTL : bool) (anims : list IconAnimation) (ref : bool) :
  indicator_springs (animateToActiveTab W calc isRTL anims ref)
  = [{| spring_toValue := indicatorTarget calc;
        spring_useNativeDriver := true;
        tension := 300;
        friction := 25 |}].
Proof.
  unfold animateToActiveTab, indicator_springs.
  rewrite !omap_app. simpl.
  rewrite (omap_concat_imap_nil _ _ _ (indicator_springs_animateIcon _ _)).
  by destruct (needsScroll calc && ref).
Qed.

(** A run of the driver scrolls at most once, and only on overflow with an
    attached scroll view. *)
Lemma scroll_offsets_animateToActiveTab (W : Q) (calc : TabCalculations)
    (isRTL : bool) (anims : list IconAnimation) (ref : bool) :
  scroll_offsets (animateToActiveTab W calc isRTL anims ref)
  = if needsScroll calc && ref
    then [if isRTL
          then (totalWidth calc - Fin W - scrollOffset W calc)%num
          else scrollOffset W calc]
    else [].
Proof.
  unfold animateToActiveTab, scroll_offsets.
  rewrite !omap_app. simpl.
  rewrite (omap_concat_imap_nil _ _ _ (scroll_offsets_animateIcon _ _)).
  by destruct (needsScroll calc && ref).
Qed.

(** The indicator target, for a route list that is not empty, is the
    offset of the specification. *)
Lemma indicatorTarget_spec (W : Q) (state : NavigationState) :
  (1 <= length (routes state))%nat ->
  indicatorTarget (tabCalculations W state)
  =n= Fin (Spec.indicatorOffset W (length (routes state)) (index state)).
Proof.
  intros H. unfold indicatorTarget.
  rewrite tabCalculations_tabWidth by done.
  change (activeIndex (tabCalculations W state)) with (index state).
  rewrite div_of_Z_pos by lia. simpl.
  unfold Spec.indicatorOffset, activeIndicator_width. field.
Qed.

(** With the active tab among the visible ones and tabs at least as wide
    as the indicator, the offset of the specification is in the
    viewport. *)
Lemma spec_indicatorOffset_bounds (W : Q) (routeCount : nat) (i : Z) :
  0 <= i < Z.min (Z.of_nat routeCount) 5 ->
  (activeIndicator_width <= Spec.tabWidth W routeCount)%Q ->
  (0 <= Spec.indicatorOffset W routeCount i <= W)%Q.
Proof.
  intros Hi Hw. unfold Spec.indicatorOffset, activeIndicator_width in *.
  assert (0 < Spec.visibleTabs routeCount)%Q as Hv by (apply inject_Z_pos; lia).
  assert (Spec.tabWidth W routeCount * Spec.visibleTabs routeCount == W)%Q as HW.
  { unfold Spec.tabWidth. field. lra. }
  assert (0 <= inject_Z i)%Q as Hi0.
  { change 0%Q with (inject_Z 0). rewrite <- Zle_Qle. lia. }
  assert (inject_Z i + 1 <= Spec.visibleTabs routeCount)%Q as Hi1.
  { unfold Spec.visibleTabs. change 1%Q with (inject_Z 1).
    rewrite <- inject_Z_plus, <- Zle_Qle. lia. }
  set (tw := Spec.tabWidth W routeCount) in *.
  set (v := Spec.visibleTabs routeCount) in *.
  set (q := inject_Z i) in *.
  assert (0 <= q * (tw - 40))%Q as H1 by (apply Qmult_le_0_compat; lra).
  assert (0 <= (v - (q + 1)) * tw)%Q as H2 by (apply Qmult_le_0_compat; lra).
  assert (q * (tw - 40) == q * tw - 40 * q)%Q as E1 by ring.
  assert ((v - (q + 1)) * tw == tw * v - q * tw - tw)%Q as E2 by ring.
  rewrite E1 in H1. rewrite E2 in H2.
  set (p := (q * tw)%Q) in *. set (r := (tw * v)%Q) in *.
  assert (p + tw / 2 - 40 / 2 == p + (1 # 2) * tw - 20)%Q as -> by field.
  clear E1 E2. clearbody p r. clearbody tw v q.
  split; lra.
Qed.




(** ** The empty route list *)

(** With no route the divisor [Math.min(0, 5)] is zero: the tab width is
    not a finite number and the total width, [0 * tabWidth], is [NaN]. *)
Lemma empty_routes_not_finite (W : Q) (i : Z) :
  let calc := tabCalculations W (mkState [] i) in
  tabWidth calc = Num.inf_of (W ?= 0)%Q
  /\ Num.is_finite (tabWidth calc) = false
  /\ totalWidth calc = NaN
  /\ needsScroll calc = false.
Proof.
  cbv beta iota zeta delta [tabCalculations tabWidth totalWidth needsScroll].
  simpl. unfold Num.div; simpl.
  by destruct (W ?= 0)%Q.
Qed.

(** C3, on the code.  For the empty route list on a viewport 360 wide the
    layout calculator yields tab width [Infinity] and total width [NaN]
    (not 0 and 0); the overflow flag is false, no tab and no floating button
    is rendered and nothing is thrown; the width of the strip and the
    target of the indicator spring are [NaN]. *)
Theorem empty_routes_geometry :
  let state := mkState [] 0 in
  let calc := tabCalculations 360 state in
  tabWidth calc = PInf
  /\ totalWidth calc = NaN
  /\ needsScroll calc = false
  /\ mount 360 no_translation state plain_descriptors false
     = Ok ({| iconAnimations := [];
              memo_deps := (0%nat, 0);
              memo_value := calc;
              callback_isRTL := false |},
           {| contentWidth := NaN;
              flexDirection := row;
              tabs := [];
              floating := None |},
           [start (Animated_spring indicatorAnim
                     {| spring_toValue := NaN;
                        spring_useNativeDriver := true;
                        tension := 300;
                        friction := 25 |})]).
Proof. repeat split. Qed.

(** ** Press handlers *)

Lemma press_contract_of_navigations listen route isFocused calls :
  press_contract_of listen route isFocused calls ->
  let event := {| type := "tabPress"; target := key route;
                  canPreventDefault := true |} in
  (isFocused = false /\ listen event = false
   <-> navigations calls = [name route])
  /\ (isFocused = true -> navigations calls = [])
  /\ (listen event = true -> navigations calls = []).
Proof.
  unfold press_contract_of. intros ->.
  destruct isFocused, (listen _); simpl; split_and!; try done.
  all: split; [intros [? ?]; done | done].
Qed.

Lemma Tab_onPress_contract listen route isFocused :
  press_contract_of listen route isFocused
    (trace listen (Tab.onPress route isFocused)).
Proof.
  unfold press_contract_of, trace, Tab.onPress, bind, navigation.emit; simpl.
  by destruct isFocused, (listen _).
Qed.

Lemma FloatingCamera_onPress_contract listen cameraRoute isFocused :
  press_contract_of listen cameraRoute isFocused
    (trace listen (FloatingCamera.onPress cameraRoute isFocused)).
Proof.
  unfold press_contract_of, trace, FloatingCamera.onPress, bind,
    navigation.emit; simpl.
  by destruct isFocused, (listen _).
Qed.

(** What [renderTab] returns when it does not throw. *)
Lemma renderTab_Ok state calc anims descriptors i route item :
  renderTab state calc anims descriptors i route = Ok item ->
  (is_camera route = true /\ item = View (key route) (tabWidth calc))
  \/ (is_camera route = false
      /\ exists options anim,
           descriptors (key route) = Some options
           /\ anims !! i = Some anim
           /\ item = Touchable (key route) (tabWidth calc)
                       (index state =? Z.of_nat i)
                       (label_of options route) (IconComponent route) anim
                       {| props_onPress :=
                            Some (Tab.onPress route (index state =? Z.of_nat i));
                          props_onLongPress := Some (Tab.onLongPress route);
                          activeOpacity := 7 # 10 |}).
Proof.
  unfold renderTab, is_camera.
  destruct (descriptors (key route)) as [options |]; [| done].
  destruct (String.eqb (name route) "camera").
  - intros [= <-]. by left.
  - destruct (anims !! i) as [anim |] eqn:E; [| done].
    intros [= <-]. right. split; [done |]. by exists options, anim.
Qed.

(** What [renderFloatingCameraButton] returns when there is a button. *)
Lemma renderFloatingCameraButton_Some t state calc descriptors isRTL button :
  renderFloatingCameraButton t state calc descriptors isRTL = Ok (Some button) ->
  exists cameraRoute,
    find is_camera (routes state) = Some cameraRoute
    /\ camera_isFocused button = (index state =? cameraIndex calc)
    /\ camera_props button
       = {| props_onPress :=
              Some (FloatingCamera.onPress cameraRoute
                      (index state =? cameraIndex calc));
            props_onLongPress := None;
            activeOpacity := 8 # 10 |}.
Proof.
  unfold renderFloatingCameraButton.
  destruct (find is_camera (routes state)) as [cameraRoute |]; [| done].
  destruct (descriptors (key cameraRoute)); [| done].
  intros [= <-]. by exists cameraRoute.
Qed.

(** [find] and [findIndex] agree: the route found by name sits at the
    index found by name, and no earlier route has that name. *)
Lemma findIndex_from_find {A : Type} (p : A -> bool) (l : list A) (j : Z) (x : A) :
  find p l = Some x ->
  exists n : nat,
    findIndex_from p l j = j + Z.of_nat n
    /\ l !! n = Some x
    /\ (forall m y, (m < n)%nat -> l !! m = Some y -> p y = false).
Proof.
  revert j. induction l as [| y l IH]; intros j Hf; [done |].
  simpl in *. destruct (p y) eqn:Hp.
  - injection Hf as ->. exists 0%nat. split_and!; [lia | done | lia].
  - destruct (IH (j + 1) Hf) as (n & Hn & Hx & Hfirst).
    exists (S n). split_and!; [lia | done |].
    intros [| m] z Hm Hz; simpl in Hz; [congruence |].
    apply (Hfirst m); [lia | done].
Qed.

(** The press contract in terms of the flags the component computes.  A
    press on a tab of the strip, and a press on the floating camera button,
    first emits a cancelable [tabPress] event keyed by the route key; one
    navigation request to the name of the route follows exactly when the
    flag [isFocused] of the control is false and the listeners did not
    cancel the event.  For a tab the flag is [state.index === index]; for
    the floating button it is [state.index === cameraIndex] on the
    memoised geometry, which is the position of the camera route when the
    geometry is that of the state. *)
Theorem press_contract (t : string -> string) (state : NavigationState)
    (calc : TabCalculations) (anims : list IconAnimation)
    (descriptors : Descriptors) (isRTL : bool)
    (listen : EventDescriptor -> bool) :
  (forall i route k w selected label icon anim props,
      renderTab state calc anims descriptors i route
      = Ok (Touchable k w selected label icon anim props) ->
      let isFocused := index state =? Z.of_nat i in
      let calls := trace listen (press props) in
      selected = isFocused
      /\ press_contract_of listen route isFocused calls
      /\ (isFocused = true -> navigations calls = []))
  /\ (forall button,
      renderFloatingCameraButton t state calc descriptors isRTL
      = Ok (Some button) ->
      exists cameraRoute,
        let isFocused := index state =? cameraIndex calc in
        let calls := trace listen (press (camera_props button)) in
        find is_camera (routes state) = Some cameraRoute
        /\ camera_isFocused button = isFocused
        /\ press_contract_of listen cameraRoute isFocused calls
        /\ (isFocused = true -> navigations calls = []))
  /\ (forall W cameraRoute,
      find is_camera (routes state) = Some cameraRoute ->
      exists n : nat,
        cameraIndex (tabCalculations W state) = Z.of_nat n
        /\ routes state !! n = Some cameraRoute
        /\ ((index state =? cameraIndex (tabCalculations W state)) = true
            <-> index state = Z.of_nat n)).
Proof.
  split_and!.
  - intros i route k w selected label icon anim props Hr isFocused calls.
    apply renderTab_Ok in Hr as [[_ ?] | (_ & options & anim' & _ & _ & E)];
      [done |].
    injection E as -> -> -> -> -> -> ->.
    assert (press_contract_of listen route isFocused calls) as Hc
      by apply Tab_onPress_contract.
    split_and!; [done | done |].
    by apply (press_contract_of_navigations _ _ _ _ Hc).
  - intros button Hr.
    apply renderFloatingCameraButton_Some in Hr as (cameraRoute & Hf & Hi & Hp).
    exists cameraRoute. intros isFocused calls.
    assert (press_contract_of listen cameraRoute isFocused calls) as Hc.
    { unfold calls. rewrite Hp. apply FloatingCamera_onPress_contract. }
    split_and!; [done | done | done |].
    by apply (press_contract_of_navigations _ _ _ _ Hc).
  - intros W cameraRoute Hf.
    destruct (findIndex_from_find is_camera (routes state) 0 cameraRoute Hf)
      as (n & Hn & Hx & _).
    exists n. change (cameraIndex (tabCalculations W state))
      with (findIndex_from is_camera (routes state) 0).
    rewrite Hn, Z.add_0_l. split_and!; [done | done | apply Z.eqb_eq].
Qed.

Lemma press_contract_witness :
  let state := mkState six_routes 0 in
  let calc := tabCalculations 360 state in
  let history := mkRoute "history-2" "history" in
  press_contract_of passive history false
    (trace passive
       (press {| props_onPress := Some (Tab.onPress history false);
                 props_onLongPress := Some (Tab.onLongPress history);
                 activeOpacity := 7 # 10 |}))
  /\ exists cameraRoute,
       find is_camera (routes state) = Some cameraRoute
       /\ press_contract_of passive cameraRoute false
            (trace passive
               (press {| props_onPress :=
                           Some (FloatingCamera.onPress
                                   (mkRoute "camera-3" "camera") false);
                         props_onLongPress := None;
                         activeOpacity := 8 # 10 |}))
       /\ exists n : nat,
            cameraIndex calc = Z.of_nat n
            /\ routes state !! n = Some cameraRoute.
Proof.
  intros state calc history.
  destruct (press_contract no_translation state calc (initialAnimations state)
              plain_descriptors false passive) as (Htab & Hfloating & Hfocus).
  split.
  - apply (Htab 1%nat history "history-2" (tabWidth calc) false "history"
             (Lucide History) (mkIconAnimation (Num.of_Z 1) (Num.of_Z 0) (Fin (7 # 10)))).
    vm_compute. reflexivity.
  - destruct (Hfloating
                {| side := right_side;
                   camera_isFocused := false;
                   cameraLabel := "tabs.camera";
                   camera_props :=
                     {| props_onPress :=
                          Some (FloatingCamera.onPress
                                  (mkRoute "camera-3" "camera") false);
                        props_onLongPress := None;
                        activeOpacity := 8 # 10 |} |})
      as (cameraRoute & Hfind & _ & Hc & _).
    + reflexivity.
    + exists cameraRoute. split_and!; [exact Hfind | exact Hc |].
      destruct (Hfocus 360%Q cameraRoute Hfind) as (n & Hn & Hx & _).
      exists n. split; [exact Hn | exact Hx].
Defined.

(** C4, on the code.  The floating button takes its flag from the
    memoised geometry, whose dependencies are the route count and the
    active index only.  Mounted with the routes index and history and the
    active index 1, then rendered with the second route renamed to camera,
    the component keeps the camera index -1: the floating button is not
    focused although the camera route is the active one, and a press on it
    that no listener cancels requests a navigation to camera.  The tab of
    the strip at the same position, whose flag is computed in each render,
    is not affected. *)
Theorem floating_press_on_stale_camera_index :
  let prev := mkState [mkRoute "a" "index"; mkRoute "b" "history"] 1 in
  let state := mkState [mkRoute "a" "index"; mkRoute "b" "camera"] 1 in
  exists inst tree0 effects0 inst' tree effects button,
    mount 360 no_translation prev plain_descriptors false
    = Ok (inst, tree0, effects0)
    /\ update 360 no_translation inst state plain_descriptors false
       = Ok (inst', tree, effects)
    /\ routes state !! Z.to_nat (index state) = Some (mkRoute "b" "camera")
    /\ cameraIndex (memo_value inst') = -1
    /\ floating tree = Some button
    /\ camera_isFocused button = false
    /\ trace passive (press (camera_props button))
       = [emitted {| type := "tabPress"; target := "b";
                     canPreventDefault := true |};
          navigated "camera"].
Proof.
  intros prev state.
  destruct (mount 360 no_translation prev plain_descriptors false)
    as [[[inst tree0] effects0] |] eqn:Hm; [| vm_compute in Hm; discriminate].
  destruct (update 360 no_translation inst state plain_descriptors false)
    as [[[inst' tree] effects] |] eqn:Hu.
  - unfold mount in Hm. simpl in Hm. injection Hm as <- <- <-.
    unfold update in Hu. simpl in Hu. injection Hu as <- <- <-.
    by eexists _, _, _, _, _, _, _.
  - unfold mount in Hm. simpl in Hm. injection Hm as <- <- <-.
    vm_compute in Hu. discriminate.
Qed.

(** ** Long presses *)

Lemma Tab_onLongPress_trace listen route :
  trace listen (Tab.onLongPress route)
  = [emitted {| type := "tabLongPress"; target := key route;
                canPreventDefault := false |}].
Proof. reflexivity. Qed.

(** ** The animated-state collection *)

Lemma length_initialAnimations (state : NavigationState) :
  length (initialAnimations state) = length (routes state).
Proof. unfold initialAnimations. by rewrite length_map. Qed.

Lemma mount_iconAnimations W t state descriptors isRTL inst tree effects :
  mount W t state descriptors isRTL = Ok (inst, tree, effects) ->
  iconAnimations inst = initialAnimations state.
Proof.
  unfold mount. destruct (view _ _ _ _ _ _ _); [| done]. by intros [= <- _ _].
Qed.

Lemma update_iconAnimations W t inst state descriptors isRTL inst' tree effects :
  update W t inst state descriptors isRTL = Ok (inst', tree, effects) ->
  iconAnimations inst' = iconAnimations inst.
Proof.
  unfold update. destruct (view _ _ _ _ _ _ _); [| done]. by intros [= <- _ _].
Qed.

(** No number of renders replaces or resizes the collection. *)
Lemma rerendered_iconAnimations W t inst inst' :
  rerendered W t inst inst' -> iconAnimations inst' = iconAnimations inst.
Proof.
  induction 1 as [| inst inst' inst'' state descriptors isRTL tree effects _ IH Hu];
    [done |].
  apply update_iconAnimations in Hu. congruence.
Qed.

(** Indexing by every position of a route list is defined exactly when the
    list is no longer than the collection. *)
Lemma lookup_all_defined {A B : Type} (anims : list A) (rs : list B) :
  (forall i, (i < length rs)%nat -> is_Some (anims !! i))
  <-> (length rs <= length anims)%nat.
Proof.
  split.
  - intros H. destruct rs as [| r rs]; simpl; [lia |].
    specialize (H (length rs)). simpl in H.
    apply lookup_lt_is_Some_1 in H; lia.
  - intros H i Hi. apply lookup_lt_is_Some_2. lia.
Qed.

Lemma map_from_Throw {A B : Type} (f : nat -> A -> Result B) (l : list A)
    (j i : nat) (x : A) :
  l !! i = Some x -> is_Ok (f (j + i)%nat x) = false ->
  is_Ok (map_from f j l) = false.
Proof.
  revert j i. induction l as [| y l IH]; intros j i Hx Hf; [done |].
  destruct i as [| i]; simpl in *.
  - injection Hx as ->. rewrite Nat.add_0_r in Hf.
    by destruct (f j x).
  - destruct (f j y); [| done].
    specialize (IH (S j) i Hx). rewrite Nat.add_succ_comm in IH.
    specialize (IH Hf). by destruct (map_from f (S j) l).
Qed.

(** A route of the strip at a position the collection does not have makes
    the render throw. *)
Lemma renderTab_out_of_range state calc anims descriptors i route :
  (length anims <= i)%nat -> is_camera route = false ->
  is_Ok (renderTab state calc anims descriptors i route) = false.
Proof.
  intros Hi Hc. unfold renderTab. unfold is_camera in Hc. rewrite Hc.
  destruct (descriptors (key route)); [| done].
  by rewrite lookup_ge_None_2.
Qed.

Lemma view_out_of_range W t state calc anims descriptors isRTL i route :
  routes state !! i = Some route ->
  (length anims <= i)%nat -> is_camera route = false ->
  is_Ok (view W t state calc anims descriptors isRTL) = false.
Proof.
  intros Hr Hi Hc. unfold view.
  pose proof (map_from_Throw (renderTab state calc anims descriptors)
                (routes state) 0 i route Hr
                (renderTab_out_of_range _ _ _ _ _ _ Hi Hc)) as H.
  by destruct (map_from _ 0 (routes state)).
Qed.

Lemma map_from_Ok {A B : Type} (f : nat -> A -> Result B) (l : list A) (j : nat) :
  (forall i x, l !! i = Some x -> is_Ok (f (j + i)%nat x) = true) ->
  is_Ok (map_from f j l) = true.
Proof.
  revert j. induction l as [| y l IH]; intros j Hf; [done |]. simpl.
  pose proof (Hf 0%nat y eq_refl) as Hy. rewrite Nat.add_0_r in Hy.
  destruct (f j y); [| done].
  assert (is_Ok (map_from f (S j) l) = true) as Hl.
  { apply IH. intros i x Hx. rewrite Nat.add_succ_comm. by apply (Hf (S i)). }
  by destruct (map_from f (S j) l).
Qed.

Lemma renderTab_in_range state calc anims descriptors i route :
  (i < length anims)%nat -> is_Some (descriptors (key route)) ->
  is_Ok (renderTab state calc anims descriptors i route) = true.
Proof.
  intros Hi [options Hd]. unfold renderTab. rewrite Hd.
  destruct (String.eqb (name route) "camera"); [done |].
  by destruct (lookup_lt_is_Some_2 anims i Hi) as [anim ->].
Qed.

(** Within the bounds of the collection, and with a descriptor for every
    route, the render does not throw. *)
Lemma view_in_range W t state calc anims descriptors isRTL :
  (length (routes state) <= length anims)%nat ->
  (forall route, route ∈ routes state -> is_Some (descriptors (key route))) ->
  is_Ok (view W t state calc anims descriptors isRTL) = true.
Proof.
  intros Hlen Hd. unfold view.
  assert (is_Ok (map_from (renderTab state calc anims descriptors) 0
                   (routes state)) = true) as Hm.
  { apply map_from_Ok. intros i x Hx. simpl. apply renderTab_in_range.
    - apply lookup_lt_Some in Hx. lia.
    - apply Hd. by apply list_elem_of_lookup_2 in Hx. }
  destruct (map_from _ 0 (routes state)); [| done].
  unfold renderFloatingCameraButton.
  destruct (find is_camera (routes state)) as [cameraRoute |] eqn:Hf; [| done].
  apply find_some in Hf as [Hin _]. apply list_elem_of_In in Hin.
  by destruct (Hd cameraRoute Hin) as [options ->].
Qed.

(** C9.  The collection of animated states is created at mount with one
    entry per route of that moment and no later render resizes it.
    Indexing it by every position of a later route list is defined exactly
    when that list is no longer than the list at mount; a position beyond
    the mount-time count has no entry, and a render that reaches a tab of
    the strip at such a position throws, while a render within the bounds
    (every route having a descriptor) does not. *)
Theorem iconAnimations_fixed_at_mount (W : Q) (t : string -> string)
    (state0 : NavigationState) (descriptors0 : Descriptors) (isRTL0 : bool)
    (inst0 inst : Instance) (tree0 : Rendered) (effects0 : list Command) :
  mount W t state0 descriptors0 isRTL0 = Ok (inst0, tree0, effects0) ->
  rerendered W t inst0 inst ->
  length (iconAnimations inst) = length (routes state0)
  /\ (forall state : NavigationState,
        (forall i, (i < length (routes state))%nat ->
                   is_Some (iconAnimations inst !! i))
        <-> (length (routes state) <= length (routes state0))%nat)
  /\ (forall i, (length (routes state0) <= i)%nat ->
                iconAnimations inst !! i = None)
  /\ (forall state descriptors isRTL i route,
        routes state !! i = Some route ->
        (length (routes state0) <= i)%nat ->
        is_camera route = false ->
        is_Ok (update W t inst state descriptors isRTL) = false)
  /\ (forall state descriptors isRTL,
        (length (routes state) <= length (routes state0))%nat ->
        (forall route, route ∈ routes state ->
                       is_Some (descriptors (key route))) ->
        is_Ok (update W t inst state descriptors isRTL) = true).
Proof.
  intros Hm Hr.
  apply rerendered_iconAnimations in Hr. apply mount_iconAnimations in Hm.
  assert (length (iconAnimations inst) = length (routes state0)) as Hlen
    by (by rewrite Hr, Hm, length_initialAnimations).
  split_and!; [done | | | |].
  - intros state. rewrite <- Hlen. apply lookup_all_defined.
  - intros i Hi. apply lookup_ge_None_2. lia.
  - intros state descriptors isRTL i route Hi Hge Hc. unfold update.
    match goal with
    | |- context [view ?w ?t ?s ?c ?a ?d ?r] =>
        assert (is_Ok (view w t s c a d r) = false) as Hv
          by (apply (view_out_of_range _ _ _ _ _ _ _ i route); [done | lia | done]);
        by destruct (view w t s c a d r)
    end.
  - intros state descriptors isRTL Hle Hd. unfold update.
    match goal with
    | |- context [view ?w ?t ?s ?c ?a ?d ?r] =>
        assert (is_Ok (view w t s c a d r) = true) as Hv
          by (apply view_in_range; [lia | done]);
        by destruct (view w t s c a d r)
    end.
Qed.

Lemma iconAnimations_fixed_at_mount_witness :
  let state0 := mkState three_routes 0 in
  let inst0 :=
    {| iconAnimations := initialAnimations state0;
       memo_deps := deps_of state0;
       memo_value := tabCalculations 360 state0;
       callback_isRTL := false |} in
  length (iconAnimations inst0) = 3%nat
  /\ iconAnimations inst0 !! 3%nat = None
  /\ is_Ok (update 360 no_translation inst0 (mkState six_routes 0)
              plain_descriptors false) = false.
Proof.
  intros state0 inst0.
  destruct (mount 360 no_translation state0 plain_descriptors false)
    as [[[i0 tree0] effects0] |] eqn:Hm; [| vm_compute in Hm; discriminate].
  assert (i0 = inst0) as -> by (vm_compute in Hm; by injection Hm as <- _ _).
  destruct (iconAnimations_fixed_at_mount 360 no_translation state0
              plain_descriptors false inst0 inst0 tree0 effects0 Hm
              (rerendered_refl _ _ _))
    as (Hlen & _ & Hnone & Hthrow & _).
  split_and!.
  - exact Hlen.
  - apply Hnone. simpl. lia.
  - apply (Hthrow (mkState six_routes 0) plain_descriptors false 3%nat
             (mkRoute "statistics-4" "statistics")); [reflexivity | simpl; lia | reflexivity].
Defined.

(** ** The effect *)

Lemma mount_memo_deps W t state descriptors isRTL inst tree effects :
  mount W t state descriptors isRTL = Ok (inst, tree, effects) ->
  memo_deps inst = deps_of state.
Proof.
  unfold mount. destruct (view _ _ _ _ _ _ _); [| done]. by intros [= <- _ _].
Qed.

Lemma update_memo_deps W t inst state descriptors isRTL inst' tree effects :
  update W t inst state descriptors isRTL = Ok (inst', tree, effects) ->
  memo_deps inst' = deps_of state.
Proof.
  unfold update. destruct (view _ _ _ _ _ _ _); [| done]. by intros [= <- _ _].
Qed.

(** The dependencies of the memo cell determine every field of the
    geometry but the camera index, which is read from the route names. *)
Lemma tabCalculations_deps (W : Q) (state state' : NavigationState) :
  deps_of state = deps_of state' ->
  let calc := tabCalculations W state in
  let calc' := tabCalculations W state' in
  tabWidth calc = tabWidth calc'
  /\ totalWidth calc = totalWidth calc'
  /\ needsScroll calc = needsScroll calc'
  /\ activeIndex calc = activeIndex calc'
  /\ routesCount calc = routesCount calc'.
Proof.
  unfold deps_of. intros [= Hl Hi].
  cbv beta iota zeta delta
    [tabCalculations tabWidth totalWidth needsScroll activeIndex routesCount].
  by rewrite Hl, Hi.
Qed.

(** The first render runs the driver on the geometry of the mounted
    state. *)
Lemma mount_effects W t state descriptors isRTL inst tree effects :
  mount W t state descriptors isRTL = Ok (inst, tree, effects) ->
  effects
  = animateToActiveTab W (tabCalculations W state) isRTL
      (initialAnimations state) true.
Proof.
  unfold mount. destruct (view _ _ _ _ _ _ _); [| done]. by intros [= _ _ <-].
Qed.

(** A render with another active index recomputes the geometry and runs
    the driver on it. *)
Lemma update_effects_index_changed W t inst prev state descriptors isRTL
    inst' tree effects :
  memo_deps inst = deps_of prev ->
  index state <> index prev ->
  update W t inst state descriptors isRTL = Ok (inst', tree, effects) ->
  effects
  = animateToActiveTab W (tabCalculations W state) isRTL
      (iconAnimations inst) true.
Proof.
  intros Hd Hi. unfold update. rewrite Hd.
  assert (deps_eqb (deps_of state) (deps_of prev) = false) as ->.
  { unfold deps_eqb, deps_of; simpl.
    apply andb_false_iff. right. by apply Z.eqb_neq. }
  simpl. destruct (view _ _ _ _ _ _ _); [| done]. by intros [= _ _ <-].
Qed.

(** A render that changes neither the route count, the active index nor
    the direction runs no effect. *)
Lemma update_effects_unchanged W t inst state descriptors inst' tree effects :
  memo_deps inst = deps_of state ->
  update W t inst state descriptors (callback_isRTL inst)
  = Ok (inst', tree, effects) ->
  effects = [].
Proof.
  intros Hd. unfold update. rewrite Hd.
  assert (deps_eqb (deps_of state) (deps_of state) = true) as ->.
  { unfold deps_eqb. by rewrite Nat.eqb_refl, Z.eqb_refl. }
  rewrite eqb_reflx. simpl.
  destruct (view _ _ _ _ _ _ _); [| done]. by intros [= _ _ <-].
Qed.



(** ** The scroll synchroniser *)

Lemma needsScroll_nonempty (W : Q) (state : NavigationState) :
  needsScroll (tabCalculations W state) = true ->
  (1 <= length (routes state))%nat.
Proof.
  destruct state as [[| r rs] i]; [| intros _; simpl; lia].
  intros H. pose proof (empty_routes_not_finite W i) as (_ & _ & _ & E).
  rewrite E in H. discriminate.
Qed.

Lemma tabCalculations_totalWidth_eq (W : Q) (state : NavigationState) :
  (1 <= length (routes state))%nat ->
  totalWidth (tabCalculations W state)
  = Fin (inject_Z (Z.of_nat (length (routes state)))
         * Spec.tabWidth W (length (routes state))).
Proof.
  intros H.
  change (totalWidth (tabCalculations W state))
    with (Num.of_nat (length (routes state)) * tabWidth (tabCalculations W state))%num.
  by rewrite tabCalculations_tabWidth.
Qed.

(** [Math.max(0, Math.min(x, hi))] is the clamp of the specification when
    the upper bound is not negative. *)
Lemma Math_clamp (x x' hi hi' : Q) :
  (x == x')%Q -> (hi == hi')%Q -> (0 <= hi)%Q ->
  Num.Math_max (Num.of_Z 0) (Num.Math_min (Fin x) (Fin hi))
  =n= Fin (Spec.clamp x' 0 hi').
Proof.
  intros Hx Hh H0. unfold Spec.clamp.
  destruct (Qle_bool x' 0) eqn:E1; [| destruct (Qle_bool hi' x') eqn:E2].
  all: try apply Qle_bool_iff in E1; try apply Qle_bool_iff in E2.
  all: try (apply not_true_iff_false in E1; rewrite Qle_bool_iff in E1).
  all: try (apply not_true_iff_false in E2; rewrite Qle_bool_iff in E2).
  all: unfold Num.Math_min, Num.Math_max, Num.of_Z; simpl.
  all: destruct (Qcompare_spec x hi); simpl.
  all: match goal with
       | |- context [(inject_Z 0 ?= ?y)%Q] =>
           destruct (Qcompare_spec (inject_Z 0) y)
       end; simpl.
  all: change (inject_Z 0) with 0%Q in *; lra.
Qed.

Lemma spec_clamp_bounds (x hi : Q) :
  (0 <= hi)%Q -> (0 <= Spec.clamp x 0 hi <= hi)%Q.
Proof.
  intros H. unfold Spec.clamp.
  destruct (Qle_bool x 0) eqn:E1; [lra |].
  apply not_true_iff_false in E1; rewrite Qle_bool_iff in E1.
  destruct (Qle_bool hi x) eqn:E2; [lra |].
  apply not_true_iff_false in E2; rewrite Qle_bool_iff in E2. lra.
Qed.

(** On overflow the offset of the code is the clamp of the
    specification. *)
Lemma scrollOffset_spec (W : Q) (state : NavigationState) :
  needsScroll (tabCalculations W state) = true ->
  scrollOffset W (tabCalculations W state)
  =n= Fin (Spec.scrollOffset W (length (routes state)) (index state)).
Proof.
  intros H. pose proof (needsScroll_nonempty W state H) as HR.
  apply (tabCalculations_needsScroll W state HR) in H.
  unfold scrollOffset.
  rewrite tabCalculations_totalWidth_eq, tabCalculations_tabWidth by done.
  change (activeIndex (tabCalculations W state)) with (index state).
  rewrite !div_of_Z_pos by lia.
  unfold Spec.scrollOffset, Spec.centred, Spec.totalWidth in *.
  set (tw := Spec.tabWidth W (length (routes state))) in *.
  set (r := inject_Z (Z.of_nat (length (routes state)))) in *.
  apply Math_clamp.
  - field.
  - ring.
  - clearbody tw r. assert (r * tw + - W == tw * r - W)%Q as -> by ring.
    set (p := (tw * r)%Q) in *. clearbody p. lra.
Qed.





(** ** Icon resolution *)

(** A name of the table resolves to the icon of the table. *)
Lemma IconComponent_mapped (route : Route) (icon : Icon) :
  iconMap !! name route = Some icon -> IconComponent route = Lucide icon.
Proof. intros H. unfold IconComponent, get_property. by rewrite H. Qed.

(** A name that is neither in the table nor a property name of
    [Object.prototype] resolves to the home icon. *)
Lemma IconComponent_default (route : Route) :
  iconMap !! name route = None -> name route ∉ Object_prototype ->
  IconComponent route = Lucide Home.
Proof.
  intros H Hp. unfold IconComponent, get_property. rewrite H.
  by rewrite bool_decide_eq_false_2.
Qed.

(** A property name of [Object.prototype] that is not in the table
    resolves to the inherited member, not to the home icon. *)
Lemma IconComponent_inherited (route : Route) :
  iconMap !! name route = None -> name route ∈ Object_prototype ->
  IconComponent route = Inherited (name route).
Proof.
  intros H Hp. unfold IconComponent, get_property. rewrite H.
  by rewrite bool_decide_eq_true_2.
Qed.

(** C8, on the code.  The names of the table resolve to their icons and an
    ordinary unmapped name resolves to the home icon, but the route name
    "constructor", which is not a key of the table, resolves to the member
    that the table inherits from [Object.prototype]. *)
Theorem icon_resolution_inherited_name :
  iconMap !! "constructor" = None
  /\ IconComponent (mkRoute "constructor-7" "constructor")
     = Inherited "constructor"
  /\ IconComponent (mkRoute "settings-8" "settings") = Lucide Home
  /\ map (fun n => IconComponent (mkRoute n n))
       ["index"; "history"; "camera"; "statistics"; "calendar"; "devices";
        "recommended-menus"; "ai-chat"; "food-scanner"; "questionnaire";
        "profile"]
     = map Lucide
         [Home; History; Camera; TrendingUp; Calendar; Watch;
          UtensilsCrossed; Bot; Scan; ClipboardList; User].
Proof. by vm_compute. Qed.

(** * Further properties of the component *)

(** ** The range of the scroll offset *)

(** On overflow the offset of the code is a finite number. *)
Lemma scrollOffset_finite (W : Q) (state : NavigationState) :
  needsScroll (tabCalculations W state) = true ->
  exists off : Q,
    scrollOffset W (tabCalculations W state) = Fin off
    /\ (off == Spec.scrollOffset W (length (routes state)) (index state))%Q.
Proof.
  intros H. pose proof (scrollOffset_spec W state H) as Hs.
  destruct (scrollOffset W (tabCalculations W state)) as [off | | |]; try done.
  by exists off.
Qed.



(** ** The rendered tree *)

Lemma map_from_Ok_lookup {A B : Type} (f : nat -> A -> Result B) (l : list A)
    (j : nat) (ys : list B) :
  map_from f j l = Ok ys ->
  length ys = length l
  /\ (forall i x, l !! i = Some x ->
                  exists y, ys !! i = Some y /\ f (j + i)%nat x = Ok y).
Proof.
  revert j ys. induction l as [| x l IH]; intros j ys; simpl.
  - intros [= <-]. split; [done | by intros i x].
  - destruct (f j x) as [y |] eqn:Hy; [| done].
    destruct (map_from f (S j) l) as [ys' |] eqn:Hl; [| done].
    intros [= <-]. destruct (IH _ _ Hl) as [Hlen Hlook]. split.
    + simpl. by rewrite Hlen.
    + intros [| i] z Hz; simpl in *.
      * injection Hz as <-. exists y. by rewrite Nat.add_0_r.
      * destruct (Hlook i z Hz) as (y' & ? & ?). exists y'.
        by rewrite <- Nat.add_succ_comm.
Qed.

Lemma view_Ok_inv W t state calc anims descriptors isRTL tree :
  view W t state calc anims descriptors isRTL = Ok tree ->
  exists items button,
    map_from (renderTab state calc anims descriptors) 0 (routes state) = Ok items
    /\ renderFloatingCameraButton t state calc descriptors isRTL = Ok button
    /\ tree = {| contentWidth := Num.Math_max (Fin W) (totalWidth calc);
                 flexDirection := if isRTL then row_reverse else row;
                 tabs := items;
                 floating := button |}.
Proof.
  unfold view.
  destruct (map_from _ 0 (routes state)) as [items |]; [| done].
  destruct (renderFloatingCameraButton _ _ _ _ _) as [button |]; [| done].
  intros [= <-]. by exists items, button.
Qed.

(** Position by position, the strip is the routes rendered by
    [renderTab]. *)
Lemma view_tabs_lookup W t state calc anims descriptors isRTL tree :
  view W t state calc anims descriptors isRTL = Ok tree ->
  length (tabs tree) = length (routes state)
  /\ (forall i route, routes state !! i = Some route ->
        exists item, tabs tree !! i = Some item
                     /\ renderTab state calc anims descriptors i route = Ok item).
Proof.
  intros Hv. apply view_Ok_inv in Hv as (items & button & Hm & _ & ->).
  apply map_from_Ok_lookup in Hm as [Hlen Hlook]. split; [done |].
  intros i route Hr. destruct (Hlook i route Hr) as (item & ? & ?).
  by exists item.
Qed.

Lemma renderTab_item state calc anims descriptors i route item :
  renderTab state calc anims descriptors i route = Ok item ->
  item_key_of item = key route
  /\ item_width item = tabWidth calc
  /\ (item_props item = None <-> is_camera route = true)
  /\ item_selected item
     = negb (is_camera route) && (index state =? Z.of_nat i).
Proof.
  intros Hr.
  apply renderTab_Ok in Hr as [[Hc ->] | (Hc & options & anim & _ & _ & ->)];
    rewrite Hc; simpl; split_and!; done.
Qed.

(** X6.  A render that does not throw shows the routes in their order: the
    keys of the strip are the keys of the routes, every item has the tab
    width of the geometry, the item of a route is the empty slot exactly
    when the route is named camera, and an item is marked selected exactly
    when it is a tab at the position [state.index]. *)
Theorem rendered_strip_follows_routes (W : Q) (t : string -> string)
    (state : NavigationState) (calc : TabCalculations)
    (anims : list IconAnimation) (descriptors : Descriptors) (isRTL : bool)
    (tree : Rendered) :
  view W t state calc anims descriptors isRTL = Ok tree ->
  item_key_of <$> tabs tree = key <$> routes state
  /\ Forall (fun item => item_width item = tabWidth calc) (tabs tree)
  /\ (forall i route item,
        routes state !! i = Some route -> tabs tree !! i = Some item ->
        (item_props item = None <-> is_camera route = true)
        /\ item_selected item
           = negb (is_camera route) && (index state =? Z.of_nat i)).
Proof.
  intros Hv. destruct (view_tabs_lookup _ _ _ _ _ _ _ _ Hv) as [Hlen Hlook].
  split_and!.
  - apply list_eq. intros i. rewrite !list_lookup_fmap.
    destruct (routes state !! i) as [route |] eqn:Hr.
    + destruct (Hlook i route Hr) as (item & -> & Hi). simpl.
      by rewrite (proj1 (renderTab_item _ _ _ _ _ _ _ Hi)).
    + apply lookup_ge_None_1 in Hr. rewrite lookup_ge_None_2 by lia. done.
  - apply Forall_lookup. intros i item Hi.
    destruct (lookup_lt_is_Some_2 (routes state) i) as [route Hr].
    { apply lookup_lt_Some in Hi. lia. }
    destruct (Hlook i route Hr) as (item' & Hi' & Hrt).
    assert (item' = item) as -> by congruence.
    apply (renderTab_item _ _ _ _ _ _ _ Hrt).
  - intros i route item Hr Hi.
    destruct (Hlook i route Hr) as (item' & Hi' & Hrt).
    assert (item' = item) as -> by congruence.
    destruct (renderTab_item _ _ _ _ _ _ _ Hrt) as (_ & _ & ? & ?). done.
Qed.

Lemma rendered_strip_follows_routes_witness :
  let state := mkState three_routes 2 in
  exists tree,
    view 360 no_translation state (tabCalculations 360 state)
      (initialAnimations state) plain_descriptors false = Ok tree
    /\ item_key_of <$> tabs tree = ["index-1"; "camera-3"; "profile-6"]
    /\ Forall (fun item => item_width item = tabWidth (tabCalculations 360 state))
         (tabs tree).
Proof.
  intros state.
  destruct (view 360 no_translation state (tabCalculations 360 state)
              (initialAnimations state) plain_descriptors false)
    as [tree |] eqn:Hv; [| vm_compute in Hv; discriminate].
  exists tree. split; [reflexivity |].
  destruct (rendered_strip_follows_routes _ _ _ _ _ _ _ _ Hv) as (Hk & Hw & _).
  split; [exact Hk | exact Hw].
Defined.

Lemma renderTab_is_Ok_iff state calc anims descriptors i route :
  is_Ok (renderTab state calc anims descriptors i route) = true
  <-> is_Some (descriptors (key route))
      /\ (is_camera route = false -> (i < length anims)%nat).
Proof.
  unfold renderTab, is_camera.
  destruct (descriptors (key route)) as [options |]; simpl.
  - destruct (String.eqb (name route) "camera").
    + split; [by eauto | done].
    + destruct (anims !! i) as [anim |] eqn:E; simpl.
      * apply lookup_lt_Some in E. split; [by eauto | done].
      * apply lookup_ge_None_1 in E. split; [done |].
        intros [_ H]. specialize (H eq_refl). lia.
  - split; [done | by intros [[? ?] _]].
Qed.

(** X7.  A render throws exactly when some route has no descriptor or some
    route that is not named camera sits at a position for which the
    collection of animated states has no entry. *)
Theorem view_succeeds_iff (W : Q) (t : string -> string)
    (state : NavigationState) (calc : TabCalculations)
    (anims : list IconAnimation) (descriptors : Descriptors) (isRTL : bool) :
  is_Ok (view W t state calc anims descriptors isRTL) = true
  <-> (forall i route,
         routes state !! i = Some route ->
         is_Some (descriptors (key route))
         /\ (is_camera route = false -> (i < length anims)%nat)).
Proof.
  split.
  - intros H.
    destruct (view W t state calc anims descriptors isRTL) as [tree |] eqn:Hv;
      [| done].
    destruct (view_tabs_lookup _ _ _ _ _ _ _ _ Hv) as [_ Hlook].
    intros i route Hr. destruct (Hlook i route Hr) as (item & _ & Hrt).
    apply (renderTab_is_Ok_iff state calc). by rewrite Hrt.
  - intros H. unfold view.
    assert (is_Ok (map_from (renderTab state calc anims descriptors) 0
                     (routes state)) = true) as Hm.
    { apply map_from_Ok. intros i x Hx. simpl.
      apply renderTab_is_Ok_iff. by apply H. }
    destruct (map_from _ 0 (routes state)); [| done].
    unfold renderFloatingCameraButton.
    destruct (find is_camera (routes state)) as [cameraRoute |] eqn:Hf; [| done].
    apply find_some in Hf as [Hin _]. apply list_elem_of_In in Hin.
    apply list_elem_of_lookup in Hin as [i Hi].
    by destruct (proj1 (H i cameraRoute Hi)) as [options ->].
Qed.

Lemma view_Ok_descriptors W t state calc anims descriptors isRTL :
  is_Ok (view W t state calc anims descriptors isRTL) = true ->
  forall route, route ∈ routes state -> is_Some (descriptors (key route)).
Proof.
  intros H route Hin.
  destruct (view W t state calc anims descriptors isRTL) as [tree |] eqn:Hv;
    [| done].
  destruct (view_tabs_lookup _ _ _ _ _ _ _ _ Hv) as [_ Hlook].
  apply list_elem_of_lookup in Hin as [i Hi].
  destruct (Hlook i route Hi) as (item & _ & Hrt).
  apply (renderTab_is_Ok_iff state calc anims descriptors i route).
  by rewrite Hrt.
Qed.

(** X8.  The first call of the component function, which renders with the
    collection of animated states it has just created, throws exactly when
    some route has no descriptor: the collection has one entry per route,
    so no position is out of its range.  The tree it returns has one item
    per route. *)
Theorem first_call_succeeds_iff (W : Q) (t : string -> string)
    (state : NavigationState) (descriptors : Descriptors) (isRTL : bool) :
  let first :=
    view W t state (tabCalculations W state) (initialAnimations state)
      descriptors isRTL in
  (is_Ok first = true
   <-> forall route, route ∈ routes state -> is_Some (descriptors (key route)))
  /\ length (initialAnimations state) = length (routes state)
  /\ (forall tree, first = Ok tree ->
                   length (tabs tree) = length (routes state)).
Proof.
  intros first. split_and!.
  - split.
    + apply view_Ok_descriptors.
    + intros H. apply view_in_range; [| done].
      by rewrite length_initialAnimations.
  - apply length_initialAnimations.
  - intros tree Hv. by destruct (view_tabs_lookup _ _ _ _ _ _ _ _ Hv).
Qed.

Lemma first_call_succeeds_iff_witness :
  is_Ok (view 360 no_translation (mkState six_routes 0)
           (tabCalculations 360 (mkState six_routes 0))
           (initialAnimations (mkState six_routes 0)) plain_descriptors false)
  = true.
Proof.
  apply (first_call_succeeds_iff 360 no_translation (mkState six_routes 0)
           plain_descriptors false).
  intros route _. by eexists.
Defined.

(** ** The floating button and focus *)

Lemma findIndex_from_None {A : Type} (p : A -> bool) (l : list A) (j : Z) :
  find p l = None -> findIndex_from p l j = -1.
Proof.
  revert j. induction l as [| x l IH]; intros j; simpl; [done |].
  destruct (p x); [done | apply IH].
Qed.

Lemma findIndex_none_iff {A : Type} (p : A -> bool) (l : list A) :
  findIndex p l = -1 <-> find p l = None.
Proof.
  unfold findIndex. split; [| apply findIndex_from_None].
  destruct (find p l) as [x |] eqn:Hf; [| done].
  destruct (findIndex_from_find p l 0 x Hf) as (n & -> & _). lia.
Qed.

Lemma find_is_camera_None (rs : list Route) :
  find is_camera rs = None
  <-> forall route, route ∈ rs -> name route <> "camera".
Proof.
  split.
  - intros Hf route Hin Hn. apply list_elem_of_In in Hin.
    apply (find_none _ _ Hf) in Hin. unfold is_camera in Hin.
    rewrite Hn in Hin. done.
  - intros H. destruct (find is_camera rs) as [r |] eqn:Hf; [| done].
    apply find_some in Hf as [Hin Hc]. apply list_elem_of_In in Hin.
    unfold is_camera in Hc. apply String.eqb_eq in Hc. by destruct (H r Hin).
Qed.

(** X9.  In a render that does not throw, the floating button is left out
    exactly when no route is named camera, which is exactly when the camera
    index of the freshly computed geometry is -1; a button that is rendered
    sits on the left in a right-to-left layout and on the right otherwise,
    and carries the translation of "tabs.camera". *)
Theorem floating_button_presence (W : Q) (t : string -> string)
    (state : NavigationState) (calc : TabCalculations)
    (anims : list IconAnimation) (descriptors : Descriptors) (isRTL : bool)
    (tree : Rendered) :
  view W t state calc anims descriptors isRTL = Ok tree ->
  (floating tree = None
   <-> forall route, route ∈ routes state -> name route <> "camera")
  /\ (floating tree = None <-> cameraIndex (tabCalculations W state) = -1)
  /\ (forall button, floating tree = Some button ->
        side button = (if isRTL then left_side else right_side)
        /\ cameraLabel button = t "tabs.camera").
Proof.
  intros Hv. apply view_Ok_inv in Hv as (items & button & _ & Hb & ->). simpl.
  change (cameraIndex (tabCalculations W state))
    with (findIndex is_camera (routes state)).
  rewrite findIndex_none_iff, <- find_is_camera_None.
  unfold renderFloatingCameraButton in Hb.
  destruct (find is_camera (routes state)) as [cameraRoute |].
  - destruct (descriptors (key cameraRoute)); [| done].
    injection Hb as <-. split_and!; [done | done |].
    by intros b [= <-].
  - injection Hb as <-. split_and!; done.
Qed.

Lemma floating_button_presence_witness :
  let state := mkState [mkRoute "index-1" "index"] 0 in
  exists tree,
    view 360 no_translation state (tabCalculations 360 state)
      (initialAnimations state) plain_descriptors false = Ok tree
    /\ (floating tree = None <-> cameraIndex (tabCalculations 360 state) = -1).
Proof.
  intros state.
  destruct (view 360 no_translation state (tabCalculations 360 state)
              (initialAnimations state) plain_descriptors false)
    as [tree |] eqn:Hv; [| vm_compute in Hv; discriminate].
  exists tree. split; [reflexivity |].
  apply (floating_button_presence _ _ _ _ _ _ _ _ Hv).
Defined.

Lemma filter_nil_lookup {A : Type} (P : A -> bool) (l : list A) :
  (forall i x, l !! i = Some x -> P x = false) -> List.filter P l = [].
Proof.
  induction l as [| y l IH]; intros H; simpl; [done |].
  rewrite (H 0%nat y eq_refl). apply IH. intros i x Hx. by apply (H (S i)).
Qed.

Lemma filter_at_most_one {A : Type} (P : A -> bool) (l : list A) :
  (forall i j x y, l !! i = Some x -> l !! j = Some y ->
                   P x = true -> P y = true -> i = j) ->
  (length (List.filter P l) <= 1)%nat.
Proof.
  induction l as [| z l IH]; intros H; simpl; [lia |].
  destruct (P z) eqn:Hz.
  - rewrite filter_nil_lookup; [simpl; lia |].
    intros i x Hx. apply not_true_is_false. intros HP.
    by specialize (H 0%nat (S i) z x eq_refl Hx Hz HP).
  - apply IH. intros i j x y Hx Hy HPx HPy.
    specialize (H (S i) (S j) x y Hx Hy HPx HPy). lia.
Qed.

(** X10.  A tree rendered with the geometry of its state shows at most one
    control as focused: at most one tab of the strip is selected, and when
    the floating button is focused no tab is. *)
Theorem at_most_one_focused_control (W : Q) (t : string -> string)
    (state : NavigationState) (anims : list IconAnimation)
    (descriptors : Descriptors) (isRTL : bool) (tree : Rendered) :
  view W t state (tabCalculations W state) anims descriptors isRTL = Ok tree ->
  (focused_controls tree <= 1)%nat.
Proof.
  intros Hv.
  destruct (view_tabs_lookup _ _ _ _ _ _ _ _ Hv) as [Hlen Hlook].
  assert (forall i item, tabs tree !! i = Some item ->
            item_selected item = true ->
            index state = Z.of_nat i
            /\ exists route, routes state !! i = Some route
                             /\ is_camera route = false) as Hsel.
  { intros i item Hi Hs.
    destruct (lookup_lt_is_Some_2 (routes state) i) as [route Hr].
    { apply lookup_lt_Some in Hi. lia. }
    destruct (Hlook i route Hr) as (item' & Hi' & Hrt).
    assert (item' = item) as -> by congruence.
    destruct (renderTab_item _ _ _ _ _ _ _ Hrt) as (_ & _ & _ & Hs').
    rewrite Hs in Hs'. symmetry in Hs'. apply andb_true_iff in Hs' as [Hc Hx].
    apply negb_true_iff in Hc. apply Z.eqb_eq in Hx. eauto. }
  assert (length (List.filter item_selected (tabs tree)) <= 1)%nat as Hone.
  { apply filter_at_most_one. intros i j x y Hx Hy Px Py.
    destruct (Hsel i x Hx Px) as [Hi _]. destruct (Hsel j y Hy Py) as [Hj _].
    lia. }
  unfold focused_controls.
  destruct (floating tree) as [button |] eqn:Hfl; [| lia].
  destruct (camera_isFocused button) eqn:Hfoc; [| lia].
  rewrite filter_nil_lookup; [simpl; lia |].
  intros i item Hi. apply not_true_is_false. intros Hs.
  destruct (Hsel i item Hi Hs) as (Hidx & route & Hr & Hc).
  apply view_Ok_inv in Hv as (items & b & _ & Hb & ->). simpl in Hfl. subst b.
  apply renderFloatingCameraButton_Some in Hb as (cameraRoute & Hf & Hfb & _).
  rewrite Hfoc in Hfb. symmetry in Hfb. apply Z.eqb_eq in Hfb.
  destruct (findIndex_from_find is_camera (routes state) 0 cameraRoute Hf)
    as (n & Hn & Hx & _).
  change (cameraIndex (tabCalculations W state))
    with (findIndex_from is_camera (routes state) 0) in Hfb.
  assert (i = n) as -> by lia.
  apply find_some in Hf as [_ Hcam]. congruence.
Qed.

Lemma at_most_one_focused_control_witness :
  let state := mkState six_routes 2 in
  exists tree,
    view 360 no_translation state (tabCalculations 360 state)
      (initialAnimations state) plain_descriptors false = Ok tree
    /\ (focused_controls tree <= 1)%nat.
Proof.
  intros state.
  destruct (view 360 no_translation state (tabCalculations 360 state)
              (initialAnimations state) plain_descriptors false)
    as [tree |] eqn:Hv; [| vm_compute in Hv; discriminate].
  exists tree. split; [reflexivity |].
  apply (at_most_one_focused_control _ _ _ _ _ _ _ Hv).
Defined.



(** ** The icon animations *)

Lemma icon_retargets_positions (a c : Z) (anim : IconAnimation) (l : list nat) :
  icon_retargets (concat ((fun i => animateIcon a c i anim) <$> l))
  = (fun i => (i, if Z.of_nat i =? a then raised else lowered))
    <$> filter (fun i => Z.of_nat i <> c) l.
Proof.
  unfold icon_retargets.
  induction l as [| i l IH]; [done |].
  cbn [fmap list_fmap concat]. rewrite omap_app, IH.
  rewrite filter_cons. unfold animateIcon.
  destruct (Z.eqb_spec (Z.of_nat i) c) as [-> | Hne].
  - rewrite decide_False by (intros H; by apply H). done.
  - rewrite decide_True by done. simpl.
    by destruct (Z.of_nat i =? a).
Qed.

Lemma icon_retargets_animateToActiveTab (W : Q) (calc : TabCalculations)
    (isRTL : bool) (anims : list IconAnimation) (ref : bool) :
  icon_retargets (animateToActiveTab W calc isRTL anims ref)
  = (fun i => (i, if Z.of_nat i =? activeIndex calc then raised else lowered))
    <$> filter (fun i => Z.of_nat i <> cameraIndex calc)
          (seq 0 (length anims)).
Proof.
  unfold animateToActiveTab, icon_retargets. rewrite !omap_app.
  change (omap icon_retarget [start _]) with (@nil (nat * (number * number * number))).
  assert (omap icon_retarget
            (if needsScroll calc && ref
             then [scrollTo
                     (if isRTL
                      then (totalWidth calc - Fin W - scrollOffset W calc)%num
                      else scrollOffset W calc) true]
             else []) = []) as ->
    by (by destruct (needsScroll calc && ref)).
  rewrite app_nil_r. simpl.
  set (anim0 := mkIconAnimation NaN NaN NaN).
  change (imap (animateIcon (activeIndex calc) (cameraIndex calc)) anims)
    with (imap (fun i (_ : IconAnimation) =>
                  animateIcon (activeIndex calc) (cameraIndex calc) i anim0) anims).
  rewrite (imap_seq_0 anims
             (fun i => animateIcon (activeIndex calc) (cameraIndex calc) i anim0)).
  apply icon_retargets_positions.
Qed.


(** ** Renders after the first *)

Lemma deps_eqb_eq (d d' : nat * Z) : deps_eqb d d' = true <-> d = d'.
Proof.
  destruct d as [n z], d' as [n' z']. unfold deps_eqb; simpl.
  rewrite andb_true_iff, Nat.eqb_eq, Z.eqb_eq. split.
  - by intros [-> ->].
  - by intros [= -> ->].
Qed.

Lemma animateToActiveTab_not_nil W calc isRTL anims ref :
  animateToActiveTab W calc isRTL anims ref <> [].
Proof. unfold animateToActiveTab. done. Qed.

(** X13.  A later render runs the animation effect exactly when the route
    count, the active index or the layout direction differs from the
    previous render.  The geometry is recomputed only when the route count
    or the active index changed; otherwise the memoised value is kept as it
    is, whatever the routes of the new state are.  The effect, when it
    runs, runs on the geometry the render ends with, and the collection of
    animated states is handed on unchanged. *)
Theorem effect_runs_iff (W : Q) (t : string -> string) (inst : Instance)
    (state : NavigationState) (descriptors : Descriptors) (isRTL : bool)
    (inst' : Instance) (tree : Rendered) (effects : list Command) :
  update W t inst state descriptors isRTL = Ok (inst', tree, effects) ->
  (effects = []
   <-> deps_of state = memo_deps inst /\ isRTL = callback_isRTL inst)
  /\ (effects <> [] ->
      effects = animateToActiveTab W (memo_value inst') isRTL
                  (iconAnimations inst) true)
  /\ (deps_of state = memo_deps inst -> memo_value inst' = memo_value inst)
  /\ (deps_of state <> memo_deps inst ->
      memo_value inst' = tabCalculations W state)
  /\ memo_deps inst' = deps_of state
  /\ callback_isRTL inst' = isRTL
  /\ iconAnimations inst' = iconAnimations inst.
Proof.
  unfold update.
  destruct (view _ _ _ _ _ _ _) as [tree' |]; [| done].
  intros [= <- <- <-]. simpl.
  destruct (deps_eqb (deps_of state) (memo_deps inst)) eqn:Hd.
  - apply deps_eqb_eq in Hd. simpl.
    destruct (Bool.eqb isRTL (callback_isRTL inst)) eqn:Hr; simpl.
    + apply eqb_prop in Hr. split_and!; done.
    + apply eqb_false_iff in Hr. split_and!; try done.
      split; [intros H; by apply animateToActiveTab_not_nil in H |].
      by intros [_ ?].
  - assert (deps_of state <> memo_deps inst) as Hne.
    { intros E. apply deps_eqb_eq in E. congruence. }
    simpl. split_and!; try done.
    split; [intros H; by apply animateToActiveTab_not_nil in H |].
    by intros [? _].
Qed.

Lemma effect_runs_iff_witness :
  let prev := mkState three_routes 0 in
  let inst :=
    {| iconAnimations := initialAnimations prev;
       memo_deps := deps_of prev;
       memo_value := tabCalculations 360 prev;
       callback_isRTL := false |} in
  exists effects,
    snd <$> (match update 360 no_translation inst prev plain_descriptors false with
             | Ok r => Some r
             | Throw _ => None
             end) = Some effects
    /\ (effects = []
        <-> deps_of prev = memo_deps inst /\ false = callback_isRTL inst).
Proof.
  intros prev inst.
  destruct (update 360 no_translation inst prev plain_descriptors false)
    as [[[inst' tree] effects] |] eqn:Hu; [| vm_compute in Hu; discriminate].
  exists effects. split; [reflexivity |].
  apply (effect_runs_iff 360 no_translation inst prev plain_descriptors false
           inst' tree effects Hu).
Defined.

Lemma update_memo_value W t inst state descriptors isRTL inst' tree effects :
  update W t inst state descriptors isRTL = Ok (inst', tree, effects) ->
  memo_value inst'
  = if deps_eqb (deps_of state) (memo_deps inst)
    then memo_value inst else tabCalculations W state.
Proof.
  unfold update. destruct (view _ _ _ _ _ _ _); [| done].
  intros [= <- _ _]. simpl. by destruct (deps_eqb _ _).
Qed.

(** X14.  After any sequence of renders the memoised geometry agrees with
    the geometry of the state rendered last in tab width, total width,
    overflow flag, active index and route count; only the camera index,
    which is read from the route names, may be that of an earlier render.
    The collection of animated states still has the size it was mounted
    with. *)
Theorem memoised_geometry_is_current (W : Q) (t : string -> string)
    (inst : Instance) (state : NavigationState) :
  rendered W t inst state ->
  let calc := tabCalculations W state in
  memo_deps inst = deps_of state
  /\ tabWidth (memo_value inst) = tabWidth calc
  /\ totalWidth (memo_value inst) = totalWidth calc
  /\ needsScroll (memo_value inst) = needsScroll calc
  /\ activeIndex (memo_value inst) = activeIndex calc
  /\ routesCount (memo_value inst) = routesCount calc.
Proof.
  induction 1 as [state descriptors isRTL inst tree effects Hm
                 | inst prev state descriptors isRTL inst' tree effects _ IH Hu].
  - pose proof (mount_memo_deps _ _ _ _ _ _ _ _ Hm) as Hd.
    unfold mount in Hm. destruct (view _ _ _ _ _ _ _); [| done].
    injection Hm as <- _ _. simpl. split_and!; done.
  - destruct IH as (Hd & I1 & I2 & I3 & I4 & I5). intros calc.
    pose proof (update_memo_deps _ _ _ _ _ _ _ _ _ Hu) as Hd'.
    pose proof (update_memo_value _ _ _ _ _ _ _ _ _ Hu) as Hv.
    destruct (deps_eqb (deps_of state) (memo_deps inst)) eqn:He.
    + apply deps_eqb_eq in He. rewrite Hd in He.
      destruct (tabCalculations_deps W prev state (eq_sym He))
        as (E1 & E2 & E3 & E4 & E5).
      rewrite Hv. unfold calc. split_and!; [done | | | | |]; congruence.
    + rewrite Hv. split_and!; done.
Qed.

Lemma memoised_geometry_is_current_witness :
  let state := mkState three_routes 0 in
  let inst :=
    {| iconAnimations := initialAnimations state;
       memo_deps := deps_of state;
       memo_value := tabCalculations 360 state;
       callback_isRTL := false |} in
  memo_deps inst = deps_of state
  /\ tabWidth (memo_value inst) = tabWidth (tabCalculations 360 state).
Proof.
  intros state inst.
  destruct (mount 360 no_translation state plain_descriptors false)
    as [[[i0 tree0] effects0] |] eqn:Hm; [| vm_compute in Hm; discriminate].
  assert (i0 = inst) as -> by (vm_compute in Hm; by injection Hm as <- _ _).
  destruct (memoised_geometry_is_current 360 no_translation inst state
              (rendered_mount _ _ _ _ _ _ _ _ Hm)) as (H1 & H2 & _).
  split; [exact H1 | exact H2].
Defined.

(** The camera index of the memoised geometry can lag behind the routes:
    a render that renames a route to camera and keeps the route count and
    the active index leaves the memoised camera index at -1, while the
    floating button is rendered. *)
Lemma memoised_camera_index_can_lag :
  let prev := mkState [mkRoute "a" "index"; mkRoute "b" "history"] 1 in
  let state := mkState [mkRoute "a" "index"; mkRoute "b" "camera"] 1 in
  let inst :=
    {| iconAnimations := initialAnimations prev;
       memo_deps := deps_of prev;
       memo_value := tabCalculations 360 prev;
       callback_isRTL := false |} in
  exists inst' tree effects button,
    update 360 no_translation inst state plain_descriptors false
    = Ok (inst', tree, effects)
    /\ cameraIndex (memo_value inst') = -1
    /\ cameraIndex (tabCalculations 360 state) = 1
    /\ floating tree = Some button
    /\ camera_isFocused button = false.
Proof.
  intros prev state inst.
  destruct (update 360 no_translation inst state plain_descriptors false)
    as [[[inst' tree] effects] |] eqn:Hu; [| vm_compute in Hu; discriminate].
  unfold update in Hu. simpl in Hu. injection Hu as <- <- <-.
  by eexists _, _, _, _.
Qed.

(** ** Labels and icons *)

Lemma truthy_Some (o : option string) (l : string) :
  truthy o = Some l <-> o = Some l /\ l <> "".
Proof.
  unfold truthy. destruct o as [s |]; [| by split; [| intros [? _]]].
  destruct (String.eqb_spec s "") as [-> | Hne]; split.
  - done.
  - by intros [[= <-] ?].
  - intros [= <-]. done.
  - by intros [[= <-] _].
Qed.

Lemma truthy_None (o : option string) :
  truthy o = None <-> o = None \/ o = Some "".
Proof.
  unfold truthy. destruct o as [s |]; [| by split; [left |]].
  destruct (String.eqb_spec s "") as [-> | Hne]; split; try done.
  - by right.
  - intros [? | [= ->]]; done.
Qed.

(** X15.  The label of a rendered tab is the tab-bar label of its
    descriptor when that is present and not empty, else the title when that
    is present and not empty, else the route name; an empty string counts
    as absent.  The label is therefore never empty for a route whose name
    is not empty. *)
Theorem tab_label_resolution (state : NavigationState) (calc : TabCalculations)
    (anims : list IconAnimation) (descriptors : Descriptors) (i : nat)
    (route : Route) (item : TabItem) :
  renderTab state calc anims descriptors i route = Ok item ->
  is_camera route = false ->
  exists options label,
    descriptors (key route) = Some options
    /\ item_label item = Some label
    /\ (forall l, tabBarLabel options = Some l -> l <> "" -> label = l)
    /\ (tabBarLabel options = None \/ tabBarLabel options = Some "" ->
        forall l, title options = Some l -> l <> "" -> label = l)
    /\ (tabBarLabel options = None \/ tabBarLabel options = Some "" ->
        title options = None \/ title options = Some "" ->
        label = name route)
    /\ (name route <> "" -> label <> "").
Proof.
  intros Hr Hc.
  apply renderTab_Ok in Hr as [[Hc' _] | (_ & options & anim & Hd & _ & ->)];
    [congruence |].
  exists options, (label_of options route). simpl. unfold label_of.
  split_and!; [done | done | | | |].
  - intros l Hl Hne. by rewrite (proj2 (truthy_Some _ l) (conj Hl Hne)).
  - intros Hn l Hl Hne. rewrite (proj2 (truthy_None _) Hn).
    by rewrite (proj2 (truthy_Some _ l) (conj Hl Hne)).
  - intros Hn Ht. by rewrite (proj2 (truthy_None _) Hn), (proj2 (truthy_None _) Ht).
  - intros Hne.
    destruct (truthy (tabBarLabel options)) as [l |] eqn:E1.
    { by apply truthy_Some in E1 as [_ ?]. }
    destruct (truthy (title options)) as [l |] eqn:E2; [| done].
    by apply truthy_Some in E2 as [_ ?].
Qed.

Lemma tab_label_resolution_witness :
  let state := mkState three_routes 0 in
  let route := mkRoute "profile-6" "profile" in
  let descriptors : Descriptors :=
    fun _ => Some {| tabBarLabel := Some ""; title := Some "Me" |} in
  exists item,
    renderTab state (tabCalculations 360 state) (initialAnimations state)
      descriptors 2 route = Ok item
    /\ item_label item = Some "Me".
Proof.
  intros state route descriptors.
  destruct (renderTab state (tabCalculations 360 state)
              (initialAnimations state) descriptors 2 route)
    as [item |] eqn:Hr; [| vm_compute in Hr; discriminate].
  exists item. split; [reflexivity |].
  destruct (tab_label_resolution _ _ _ _ _ _ _ Hr eq_refl)
    as (options & label & Hd & Hl & _ & Ht & _).
  injection Hd as <-. rewrite Hl. f_equal.
  apply Ht; [by right | reflexivity | discriminate].
Defined.

Lemma iconMap_keys (n : string) (icon : Icon) :
  iconMap !! n = Some icon ->
  (n, icon) ∈ [("index", Home); ("history", History); ("camera", Camera);
               ("statistics", TrendingUp); ("calendar", Calendar);
               ("devices", Watch); ("recommended-menus", UtensilsCrossed);
               ("ai-chat", Bot); ("food-scanner", Scan);
               ("questionnaire", ClipboardList); ("profile", User)].
Proof. unfold iconMap. apply elem_of_list_to_map_2. Qed.

Lemma Object_prototype_unmapped (n : string) :
  n ∈ Object_prototype -> iconMap !! n = None.
Proof.
  unfold Object_prototype. intros H.
  repeat (apply elem_of_cons in H as [-> | H]; [by vm_compute |]).
  by apply elem_of_nil in H.
Qed.

Lemma iconMap_Home (n : string) : iconMap !! n = Some Home -> n = "index".
Proof.
  intros H. apply iconMap_keys in H.
  repeat (apply elem_of_cons in H as [H | H];
          [discriminate H || by injection H as -> |]).
  by apply elem_of_nil in H.
Qed.

(** X16.  Icon resolution for every route name: a key of the table gives
    the icon of the table, a name that is neither a key nor a property name
    of [Object.prototype] gives the home icon, and the result is one of the
    icons exactly when the name is not a property name of
    [Object.prototype]; the home icon is given exactly to "index" and to
    the names that are neither keys nor inherited. *)
Theorem icon_resolution_cases (route : Route) :
  (forall icon, iconMap !! name route = Some icon ->
                IconComponent route = Lucide icon)
  /\ (iconMap !! name route = None -> name route ∉ Object_prototype ->
      IconComponent route = Lucide Home)
  /\ ((exists icon, IconComponent route = Lucide icon)
      <-> name route ∉ Object_prototype)
  /\ (IconComponent route = Lucide Home
      <-> name route = "index"
          \/ (iconMap !! name route = None /\ name route ∉ Object_prototype)).
Proof.
  split_and!.
  - apply IconComponent_mapped.
  - apply IconComponent_default.
  - destruct (iconMap !! name route) as [icon |] eqn:Hm.
    + rewrite (IconComponent_mapped route icon Hm). split; [intros _ | by eauto].
      intros Hp. apply Object_prototype_unmapped in Hp. congruence.
    + destruct (decide (name route ∈ Object_prototype)) as [Hp | Hp].
      * rewrite (IconComponent_inherited route Hm Hp).
        split; [by intros [? ?] | done].
      * rewrite (IconComponent_default route Hm Hp). split; [done | by eauto].
  - destruct (iconMap !! name route) as [icon |] eqn:Hm.
    + rewrite (IconComponent_mapped route icon Hm). split.
      * intros [= ->]. left. by apply iconMap_Home.
      * intros [Hn | [? _]]; [| done]. rewrite Hn in Hm.
        vm_compute in Hm. by injection Hm as <-.
    + destruct (decide (name route ∈ Object_prototype)) as [Hp | Hp].
      * rewrite (IconComponent_inherited route Hm Hp). split; [done |].
        intros [Hn | [_ ?]]; [| done]. rewrite Hn in Hm. by vm_compute in Hm.
      * rewrite (IconComponent_default route Hm Hp). split; [| done].
        intros _. by right.
Qed.

Lemma icon_resolution_cases_witness :
  IconComponent (mkRoute "devices-9" "devices") = Lucide Watch
  /\ IconComponent (mkRoute "settings-8" "settings") = Lucide Home.
Proof.
  split.
  - apply (icon_resolution_cases (mkRoute "devices-9" "devices")).
    by vm_compute.
  - destruct (icon_resolution_cases (mkRoute "settings-8" "settings"))
      as (_ & Hdefault & _).
    apply Hdefault.
    + by vm_compute.
    + unfold Object_prototype. simpl. intros H.
      repeat (apply elem_of_cons in H as [H | H]; [discriminate H |]).
      by apply elem_of_nil in H.
Defined.

(** ** Presses on a rendered tree *)

(** X17.  In a rendered tree, a press on the tab at a position follows the
    press contract for the route at that position, so that any navigation
    it requests is to the name of that route, which is a route of the state
    and is not camera; the long-press callback it registers requests no
    navigation; and any navigation requested by a press on the floating
    button is to camera. *)
Theorem presses_navigate_within_routes (W : Q) (t : string -> string)
    (state : NavigationState) (calc : TabCalculations)
    (anims : list IconAnimation) (descriptors : Descriptors) (isRTL : bool)
    (tree : Rendered) (listen : EventDescriptor -> bool) :
  view W t state calc anims descriptors isRTL = Ok tree ->
  (forall i item props,
      tabs tree !! i = Some item -> item_props item = Some props ->
      exists route,
        routes state !! i = Some route
        /\ name route <> "camera"
        /\ press_contract_of listen route (index state =? Z.of_nat i)
             (trace listen (press props))
        /\ (forall n, n ∈ navigations (trace listen (press props)) ->
                      n = name route)
        /\ props_onLongPress props = Some (Tab.onLongPress route)
        /\ navigations (trace listen (Tab.onLongPress route)) = [])
  /\ (forall button n,
        floating tree = Some button ->
        n ∈ navigations (trace listen (press (camera_props button))) ->
        n = "camera").
Proof.
  intros Hv. split.
  - destruct (view_tabs_lookup _ _ _ _ _ _ _ _ Hv) as [Hlen Hlook].
    intros i item props Hi Hp.
    destruct (lookup_lt_is_Some_2 (routes state) i) as [route Hr].
    { apply lookup_lt_Some in Hi. lia. }
    destruct (Hlook i route Hr) as (item' & Hi' & Hrt).
    assert (item' = item) as -> by congruence.
    apply renderTab_Ok in Hrt as [[_ ->] | (Hc & options & anim & _ & _ & ->)];
      [done |].
    injection Hp as <-. exists route.
    pose proof (Tab_onPress_contract listen route (index state =? Z.of_nat i))
      as Hpc.
    split_and!; [done | | done | | done |].
    + intros Hn. unfold is_camera in Hc. rewrite Hn in Hc. done.
    + intros n. cbn [press props_onPress]. unfold press_contract_of in Hpc.
      rewrite Hpc. destruct (negb _ && negb _); simpl.
      * by intros ->%list_elem_of_singleton.
      * by intros ?%elem_of_nil.
    + reflexivity.
  - intros button n Hfl.
    apply view_Ok_inv in Hv as (items & b & _ & Hb & ->). simpl in Hfl. subst b.
    apply renderFloatingCameraButton_Some in Hb as (cameraRoute & Hf & _ & ->).
    apply find_some in Hf as [_ Hc]. unfold is_camera in Hc.
    apply String.eqb_eq in Hc.
    pose proof (FloatingCamera_onPress_contract listen cameraRoute
                  (index state =? cameraIndex calc)) as Hpc.
    cbn [press props_onPress]. unfold press_contract_of in Hpc. rewrite Hpc.
    destruct (negb _ && negb _); simpl.
    + intros ->%list_elem_of_singleton. done.
    + by intros ?%elem_of_nil.
Qed.

Lemma presses_navigate_within_routes_witness :
  let state := mkState six_routes 0 in
  exists tree,
    view 360 no_translation state (tabCalculations 360 state)
      (initialAnimations state) plain_descriptors false = Ok tree
    /\ (forall button n,
          floating tree = Some button ->
          n ∈ navigations (trace passive (press (camera_props button))) ->
          n = "camera").
Proof.
  intros state.
  destruct (view 360 no_translation state (tabCalculations 360 state)
              (initialAnimations state) plain_descriptors false)
    as [tree |] eqn:Hv; [| vm_compute in Hv; discriminate].
  exists tree. split; [reflexivity |].
  apply (presses_navigate_within_routes _ _ _ _ _ _ _ _ passive Hv).
Defined.

(** ** The callbacks the controls register *)

(** X18.  The floating camera button is given a press callback and no
    long-press callback, and its press callback emits no event other than
    [tabPress]; every tab of the strip is given a long-press callback,
    which emits one [tabLongPress] event for the key of its route and
    nothing else.  So no callback of the floating button emits
    [tabLongPress]. *)
Theorem long_press_callbacks_registered (t : string -> string)
    (state : NavigationState) (calc : TabCalculations)
    (anims : list IconAnimation) (descriptors : Descriptors) (isRTL : bool) :
  (forall button,
      renderFloatingCameraButton t state calc descriptors isRTL
      = Ok (Some button) ->
      props_onLongPress (camera_props button) = None
      /\ exists onPress,
           props_onPress (camera_props button) = Some onPress
           /\ forall listen e,
                emitted e ∈ trace listen onPress -> type e = "tabPress")
  /\ (forall i route k w selected label icon anim props,
      renderTab state calc anims descriptors i route
      = Ok (Touchable k w selected label icon anim props) ->
      exists onLongPress,
        props_onLongPress props = Some onLongPress
        /\ forall listen,
             trace listen onLongPress
             = [emitted {| type := "tabLongPress"; target := key route;
                           canPreventDefault := false |}]).
Proof.
  split.
  - intros button Hr.
    apply renderFloatingCameraButton_Some in Hr as (cameraRoute & _ & _ & Hp).
    rewrite Hp. cbn [props_onLongPress props_onPress].
    split; [done |]. eexists. split; [done |].
    intros listen e.
    pose proof (FloatingCamera_onPress_contract listen cameraRoute
                  (index state =? cameraIndex calc)) as Hc.
    unfold press_contract_of in Hc. cbv zeta in Hc. rewrite Hc.
    destruct (negb _ && negb _).
    + intros [[= ->] | H]%elem_of_cons; [done |].
      by apply list_elem_of_singleton in H.
    + by intros [= ->]%list_elem_of_singleton.
  - intros i route k w selected label icon anim props Hr.
    apply renderTab_Ok in Hr as [[_ ?] | (_ & options & anim' & _ & _ & E)];
      [done |].
    injection E as -> -> -> -> -> -> ->. eexists. split; [done |].
    intros listen. apply Tab_onLongPress_trace.
Qed.

Lemma long_press_callbacks_registered_witness :
  let state := mkState six_routes 0 in
  let camera := mkRoute "camera-3" "camera" in
  props_onLongPress
    {| props_onPress := Some (FloatingCamera.onPress camera false);
       props_onLongPress := None;
       activeOpacity := 8 # 10 |} = None
  /\ exists onPress,
       Some (FloatingCamera.onPress camera false) = Some onPress
       /\ forall listen e,
            emitted e ∈ trace listen onPress -> type e = "tabPress".
Proof.
  intros state camera.
  destruct (long_press_callbacks_registered no_translation state
              (tabCalculations 360 state) (initialAnimations state)
              plain_descriptors false) as [Hfloating _].
  apply (Hfloating
           {| side := right_side;
              camera_isFocused := false;
              cameraLabel := "tabs.camera";
              camera_props :=
                {| props_onPress := Some (FloatingCamera.onPress camera false);
                   props_onLongPress := None;
                   activeOpacity := 8 # 10 |} |}).
  reflexivity.
Defined.
